(** * GitHub webhook receiver: signature middleware, controller and services

    A shallow embedding of the classes

    - [GithubSha256Middleware] ([verifyGithubSignature], [verifySignature],
      [hexToBytes]) and [GitHubController] ([webHookHandler]), both found in
      [src/presentation/middlewares/github.middleware.ts],
    - [GitHubService] ([onStar], [onIssue]) and [DiscordService] ([notify]),
      both found in [src/presentation/services/github.service.ts],
    - and of [main] in [app.ts], which installs the middleware and the route,

    together with the part of the JavaScript platform these call: strings,
    [parseInt], [Uint8Array], [TextEncoder], [JSON.stringify], template
    literals and property reads on parsed JSON, and WebCrypto's HMAC with
    SHA-256.

    Representation.
    - A JavaScript string is a [string]; each [ascii] is one code unit, in
      the range 0..255 (what an HTTP header value holds).
    - A [Uint8Array] is a [list Z] with entries in 0..255.
    - Parsed JSON is the inductive [JSON]; its numbers are the safe
      integers ([Number]), which are written in plain decimal.
    - [try]/[catch] is the error monad [Result]; a promise is given by its
      settled state, [Promise].
    - The environment ([config/envs]) and the outcome of [fetch] are
      variables of the sections that need them. *)

From Stdlib Require Import ZArith Lia Ascii.
From stdpp Require Import base tactics option list strings gmap.

#[local] Set Warnings "-register-all".

Local Open Scope Z_scope.

(** ** SHA-256 (FIPS 180-4) and HMAC (RFC 2104) on byte lists *)

Module SHA256.

Definition w32 : Z := 2 ^ 32.

Definition add32 (x y : Z) : Z := (x + y) mod w32.

Definition rotr (n x : Z) : Z :=
  Z.lor (Z.shiftr x n) ((Z.shiftl x (32 - n)) mod w32).

Definition Ch (x y z : Z) : Z :=
  Z.lxor (Z.land x y) (Z.land (Z.lxor x (w32 - 1)) z).

Definition Maj (x y z : Z) : Z :=
  Z.lxor (Z.lxor (Z.land x y) (Z.land x z)) (Z.land y z).

Definition Sigma0 (x : Z) : Z :=
  Z.lxor (Z.lxor (rotr 2 x) (rotr 13 x)) (rotr 22 x).

Definition Sigma1 (x : Z) : Z :=
  Z.lxor (Z.lxor (rotr 6 x) (rotr 11 x)) (rotr 25 x).

Definition sigma0 (x : Z) : Z :=
  Z.lxor (Z.lxor (rotr 7 x) (rotr 18 x)) (Z.shiftr x 3).

Definition sigma1 (x : Z) : Z :=
  Z.lxor (Z.lxor (rotr 17 x) (rotr 19 x)) (Z.shiftr x 10).

(** The constants are taken from the primes, as FIPS 180-4 defines them:
    the first 32 bits of the fractional part of the cube root (for [K]) and
    of the square root (for [H0]) of the first primes. *)
Definition is_prime (p : Z) : bool :=
  (1 <? p) && forallb (fun d => negb (p mod d =? 0)) (seqZ 2 (p - 2)).

Definition primes : list Z := List.filter is_prime (seqZ 2 310).

(** Integer cube root of [x], one bit after the other from bit [bits - 1]. *)
Fixpoint root3 (bits : nat) (x acc : Z) : Z :=
  match bits with
  | O => acc
  | S b =>
      let c := acc + 2 ^ Z.of_nat b in
      root3 b x (if c * c * c <=? x then c else acc)
  end.

Definition frac32_cbrt (p : Z) : Z := root3 40 (p * 2 ^ 96) 0 mod w32.

Definition frac32_sqrt (p : Z) : Z := Z.sqrt (p * 2 ^ 64) mod w32.

Definition K : list Z := Eval vm_compute in map frac32_cbrt primes.

(** The eight working variables, and the chaining value. *)
Record regs : Type := Regs {
  ra : Z; rb : Z; rc : Z; rd : Z; re : Z; rf : Z; rg : Z; rh : Z
}.

Definition regs_of_list (l : list Z) : regs :=
  Regs (nth 0 l 0) (nth 1 l 0) (nth 2 l 0) (nth 3 l 0)
       (nth 4 l 0) (nth 5 l 0) (nth 6 l 0) (nth 7 l 0).

Definition H0 : regs :=
  Eval vm_compute in regs_of_list (map frac32_sqrt (take 8 primes)).

(** One big-endian 32-bit word out of four bytes. *)
Definition word_of_bytes (b0 b1 b2 b3 : Z) : Z :=
  Z.lor (Z.lor (Z.shiftl b0 24) (Z.shiftl b1 16)) (Z.lor (Z.shiftl b2 8) b3).

Fixpoint words_of_bytes (bs : list Z) : list Z :=
  match bs with
  | b0 :: b1 :: b2 :: b3 :: rest => word_of_bytes b0 b1 b2 b3 :: words_of_bytes rest
  | _ => []
  end.

Definition bytes_of_word (x : Z) : list Z :=
  [ (Z.shiftr x 24) mod 256; (Z.shiftr x 16) mod 256;
    (Z.shiftr x 8) mod 256; x mod 256 ].

(** Message schedule, kept newest word first: [ws] holds W[t-1], W[t-2], ... *)
Definition next_W (ws : list Z) : Z :=
  add32 (add32 (sigma1 (nth 1 ws 0)) (nth 6 ws 0))
        (add32 (sigma0 (nth 14 ws 0)) (nth 15 ws 0)).

Fixpoint extend_W (n : nat) (ws : list Z) : list Z :=
  match n with
  | O => ws
  | S n' => extend_W n' (next_W ws :: ws)
  end.

Definition schedule (block : list Z) : list Z :=
  rev (extend_W 48 (rev (words_of_bytes block))).

Definition round (r : regs) (kw : Z * Z) : regs :=
  let '(k, w) := kw in
  let T1 := add32 (add32 (add32 (rh r) (Sigma1 (re r)))
                         (add32 (Ch (re r) (rf r) (rg r)) k)) w in
  let T2 := add32 (Sigma0 (ra r)) (Maj (ra r) (rb r) (rc r)) in
  Regs (add32 T1 T2) (ra r) (rb r) (rc r) (add32 (rd r) T1) (re r) (rf r) (rg r).

Definition compress (h : regs) (block : list Z) : regs :=
  let r := fold_left round (combine K (schedule block)) h in
  Regs (add32 (ra h) (ra r)) (add32 (rb h) (rb r))
       (add32 (rc h) (rc r)) (add32 (rd h) (rd r))
       (add32 (re h) (re r)) (add32 (rf h) (rf r))
       (add32 (rg h) (rg r)) (add32 (rh h) (rh r)).

(** Padding: a 1 bit, zeros up to 56 mod 64, then the bit length on 64 bits. *)
Definition pad (msg : list Z) : list Z :=
  let l := Z.of_nat (length msg) in
  let zeros := Z.to_nat ((55 - l) mod 64) in
  let bits := 8 * l in
  msg ++ [0x80] ++ repeat 0 zeros
      ++ bytes_of_word (Z.shiftr bits 32) ++ bytes_of_word bits.

Fixpoint blocks (fuel : nat) (h : regs) (bs : list Z) : regs :=
  match fuel with
  | O => h
  | S fuel' =>
      match bs with
      | [] => h
      | _ => blocks fuel' (compress h (take 64 bs)) (drop 64 bs)
      end
  end.

Definition digest_bytes (h : regs) : list Z :=
  bytes_of_word (ra h) ++ bytes_of_word (rb h) ++ bytes_of_word (rc h)
  ++ bytes_of_word (rd h) ++ bytes_of_word (re h) ++ bytes_of_word (rf h)
  ++ bytes_of_word (rg h) ++ bytes_of_word (rh h).

Definition sha256 (msg : list Z) : list Z :=
  let p := pad msg in
  digest_bytes (blocks (length p) H0 p).

Definition block_size : nat := 64.

(** HMAC-SHA256(key, msg). *)
Definition hmac (key msg : list Z) : list Z :=
  let key' := if (block_size <? length key)%nat then sha256 key else key in
  let k0 := key' ++ repeat 0 (block_size - length key')%nat in
  let ipad := map (Z.lxor 0x36) k0 in
  let opad := map (Z.lxor 0x5c) k0 in
  sha256 (opad ++ sha256 (ipad ++ msg)).

End SHA256.

(** ** The JavaScript platform, as far as the sources use it *)

Module JS.

(** *** Exceptions and [try]/[catch] *)

Inductive Error : Type :=
| TypeError      (* property read on undefined or null, failed ToPrimitive *)
| DataError      (* DOMException of crypto.subtle.importKey *)
| SyntaxError.

Inductive Result (A : Type) : Type :=
| Ok (a : A)
| Throw (e : Error).
Arguments Ok {A} a.
Arguments Throw {A} e.

Definition bind {A B} (m : Result A) (k : A -> Result B) : Result B :=
  match m with
  | Ok a => k a
  | Throw e => Throw e
  end.

(** [try { body } catch (error) { handler }] *)
Definition try_catch {A} (body : Result A) (handler : Error -> A) : A :=
  match body with
  | Ok a => a
  | Throw e => handler e
  end.

(** *** Strings *)

Definition code (c : ascii) : Z := Z.of_N (N_of_ascii c).

Definition chr (n : Z) : ascii := ascii_of_N (Z.to_N n).

Fixpoint str_drop (n : nat) (s : string) : string :=
  match n, s with
  | O, _ => s
  | S n', String _ s' => str_drop n' s'
  | S _, EmptyString => EmptyString
  end.

Fixpoint str_take (n : nat) (s : string) : string :=
  match n, s with
  | S n', String c s' => String c (str_take n' s')
  | _, _ => EmptyString
  end.

(** [s.slice(i, j)] for indices [0 <= i <= j]; the end is clamped to the
    length of [s]. *)
Definition slice (s : string) (i j : nat) : string :=
  str_take (j - i) (str_drop i s).

(** [s.split(sep)] for a separator of one code unit. *)
Fixpoint split (sep : ascii) (s : string) : list string :=
  match s with
  | EmptyString => [EmptyString]
  | String c s' =>
      if Ascii.eqb c sep then EmptyString :: split sep s'
      else match split sep s' with
           | p :: ps => String c p :: ps
           | [] => [String c EmptyString]
           end
  end.

Fixpoint join (sep : string) (l : list string) : string :=
  match l with
  | [] => EmptyString
  | [x] => x
  | x :: xs => x +:+ sep +:+ join sep xs
  end.

(** *** [parseInt(string, radix)]

    ECMA-262, 19.2.5: leading white space is skipped, a sign is read, for
    radix 16 a prefix [0x] or [0X] is dropped, and the longest prefix of
    digits of the radix is converted; no digit at all gives [NaN],
    modelled by [None]. *)

Definition isWhiteSpace (c : ascii) : bool :=
  let n := code c in
  (n =? 9) || (n =? 10) || (n =? 11) || (n =? 12) || (n =? 13)
  || (n =? 32) || (n =? 160).

Fixpoint trimStart (s : string) : string :=
  match s with
  | String c s' => if isWhiteSpace c then trimStart s' else s
  | EmptyString => EmptyString
  end.

(** Value of a code unit as a digit: 0-9, a-z and A-Z stand for 0..35. *)
Definition digitValue (c : ascii) : option Z :=
  let n := code c in
  if (48 <=? n) && (n <=? 57) then Some (n - 48)
  else if (97 <=? n) && (n <=? 122) then Some (n - 87)
  else if (65 <=? n) && (n <=? 90) then Some (n - 55)
  else None.

Definition radixDigit (R : Z) (c : ascii) : option Z :=
  match digitValue c with
  | Some d => if d <? R then Some d else None
  | None => None
  end.

(** The longest prefix of radix-[R] digits of [s], read as a number;
    [acc] is [None] until a first digit has been read. *)
Fixpoint digits (R : Z) (s : string) (acc : option Z) : option Z :=
  match s with
  | String c s' =>
      match radixDigit R c with
      | Some d => digits R s' (Some (R * default 0 acc + d))
      | None => acc
      end
  | EmptyString => acc
  end.

Definition stripSign (s : string) : Z * string :=
  match s with
  | String c s' =>
      if Ascii.eqb c "-" then (-1, s')
      else if Ascii.eqb c "+" then (1, s')
      else (1, s)
  | EmptyString => (1, s)
  end.

Definition strip0x (s : string) : option string :=
  match s with
  | String c0 (String c1 s') =>
      if Ascii.eqb c0 "0" && (Ascii.eqb c1 "x" || Ascii.eqb c1 "X")
      then Some s' else None
  | _ => None
  end.

Definition parseInt (string : string) (radix : Z) : option Z :=
  let inputS := trimStart string in
  let '(sign, inputS) := stripSign inputS in
  let stripPrefix := (radix =? 0) || (radix =? 16) in
  if negb (radix =? 0) && ((radix <? 2) || (36 <? radix)) then None
  else
    let R := if radix =? 0 then 10 else radix in
    let '(R, inputS) :=
      match (if stripPrefix then strip0x inputS else None) with
      | Some rest => (16, rest)
      | None => (R, inputS)
      end in
    match digits R inputS None with
    | None => None
    | Some mathInt => Some (sign * mathInt)
    end.

(** *** [Uint8Array] *)

(** [new Uint8Array(length)]: zero filled. The constructor applies ToIndex,
    which truncates a fractional length, so the callers below pass the
    integer part. *)
Definition Uint8Array (length : nat) : list Z := replicate length 0.

(** Conversion on a store into a [Uint8Array]: [NaN] becomes 0, an integer
    is reduced modulo 256. *)
Definition ToUint8 (n : option Z) : Z :=
  match n with
  | None => 0
  | Some z => z mod 256
  end.

(** [bytes[index] = b]; a write outside the array is ignored, as by
    [<[ index := _ ]>] on lists. *)
Definition Uint8Array_set (bytes : list Z) (index : nat) (b : option Z) : list Z :=
  <[ index := ToUint8 b ]> bytes.

Definition bytes_eqb (a b : list Z) : bool := bool_decide (a = b).

(** *** [TextEncoder.prototype.encode]: UTF-8 of the code units *)

Definition encode_unit (c : ascii) : list Z :=
  let n := code c in
  if n <? 128 then [n]
  else [Z.lor 0xC0 (Z.shiftr n 6); Z.lor 0x80 (Z.land n 0x3F)].

Fixpoint encode (s : string) : list Z :=
  match s with
  | EmptyString => []
  | String c s' => encode_unit c ++ encode s'
  end.

(** *** Parsed JSON, [JSON.stringify], template literals, property reads *)

(** A number as the sources can meet it: an integer that a double holds
    exactly, from [-(2^53 - 1)] to [2^53 - 1] ([Number.MAX_SAFE_INTEGER]).
    On these [Number::toString] writes the plain decimal digits; larger
    numbers and fractions are outside the type. *)
Definition MAX_SAFE_INTEGER : Z := 2 ^ 53 - 1.

Record Number : Type := Int {
  int_value : Z;
  int_safe : (Z.abs int_value <=? MAX_SAFE_INTEGER) = true
}.

(** A value produced by [JSON.parse]. The fields of an object are listed
    in the object's own property order. *)
Inductive JSON : Type :=
| JNull
| JBool (b : bool)
| JNum (n : Number)
| JStr (s : string)
| JArr (items : list JSON)
| JObj (fields : list (string * JSON)).

(** A JavaScript value read by the sources: [None] is [undefined]. *)
Definition Value : Type := option JSON.

Definition dquote : ascii := "034".

Definition hexDigitChar (d : Z) : ascii :=
  if d <? 10 then chr (48 + d) else chr (87 + d).

(** Two lower-case hexadecimal digits of a byte. *)
Definition hex2 (b : Z) : string :=
  String (hexDigitChar (b / 16)) (String (hexDigitChar (b mod 16)) EmptyString).

Fixpoint decimal (fuel : nat) (n : Z) (acc : string) : string :=
  match fuel with
  | O => acc
  | S fuel' =>
      let acc' := String (chr (48 + n mod 10)) acc in
      if n <? 10 then acc' else decimal fuel' (n / 10) acc'
  end.

(** [Number::toString] on a safe integer: its decimal digits, after a
    minus sign when it is negative. *)
Definition Number_toString (n : Number) : string :=
  let m := Z.abs (int_value n) in
  let ds := decimal (S (Z.to_nat (Z.log2 m))) m EmptyString in
  if int_value n <? 0 then String "-" ds else ds.

(** [QuoteJSONString], one code unit. *)
Definition quoteUnit (c : ascii) : string :=
  let n := code c in
  if n =? 8 then "\b"
  else if n =? 9 then "\t"
  else if n =? 10 then "\n"
  else if n =? 12 then "\f"
  else if n =? 13 then "\r"
  else if n =? 34 then String "\" (String dquote EmptyString)
  else if n =? 92 then "\\"
  else if n <? 32 then "\u00" +:+ hex2 n
  else String c EmptyString.

Fixpoint quoteUnits (s : string) : string :=
  match s with
  | EmptyString => String dquote EmptyString
  | String c s' => quoteUnit c +:+ quoteUnits s'
  end.

Definition QuoteJSONString (s : string) : string :=
  String dquote (quoteUnits s).

(** [JSON.stringify(value)] without replacer or indentation. *)
Fixpoint JSON_stringify (v : JSON) : string :=
  match v with
  | JNull => "null"
  | JBool b => if b then "true" else "false"
  | JNum n => Number_toString n
  | JStr s => QuoteJSONString s
  | JArr items => "[" +:+ join "," (map JSON_stringify items) +:+ "]"
  | JObj fields =>
      "{" +:+ join "," (map (fun kv => QuoteJSONString (fst kv) +:+ ":"
                                        +:+ JSON_stringify (snd kv)) fields)
          +:+ "}"
  end.

(** Own property [k] of an object literal. *)
Fixpoint own (fields : list (string * JSON)) (k : string) : Value :=
  match fields with
  | [] => None
  | (k', v) :: rest => if String.eqb k' k then Some v else own rest k
  end.

(** [Result] over a list, left to right. *)
Fixpoint sequence {A} (l : list (Result A)) : Result (list A) :=
  match l with
  | [] => Ok []
  | x :: xs => bind x (fun a => bind (sequence xs) (fun rest => Ok (a :: rest)))
  end.

(** [ToString(value)], as applied by a template literal [`${value}`].
    An array is joined with commas, [null] items rendering as the empty
    string; a plain object gives [[object Object]] through
    [Object.prototype.toString], unless an own property [toString] (never
    callable in parsed JSON) hides it, in which case ToPrimitive throws. *)
Fixpoint ToString_JSON (v : JSON) : Result string :=
  match v with
  | JNull => Ok "null"
  | JBool b => Ok (if b then "true" else "false")
  | JNum n => Ok (Number_toString n)
  | JStr s => Ok s
  | JArr items =>
      bind (sequence (map (fun item =>
                             match item with
                             | JNull => Ok EmptyString
                             | _ => ToString_JSON item
                             end) items))
           (fun parts => Ok (join "," parts))
  | JObj fields =>
      match own fields "toString" with
      | Some _ => Throw TypeError
      | None => Ok "[object Object]"
      end
  end.

Definition ToString (v : Value) : Result string :=
  match v with
  | None => Ok "undefined"
  | Some j => ToString_JSON j
  end.

(** [value.k] and [const { k } = value], for the property names the
    sources read ([action], [sender], [repository], [login], [full_name],
    [issue], [title], [user]), none of which is inherited from a
    prototype: reading from [undefined] or [null] throws a [TypeError], an
    object yields its own property, every other value yields [undefined]. *)
Definition Get (v : Value) (k : string) : Result Value :=
  match v with
  | None => Throw TypeError
  | Some JNull => Throw TypeError
  | Some (JObj fields) => Ok (own fields k)
  | Some _ => Ok None
  end.

(** [value === 'literal'] *)
Definition strictEqualsString (v : Value) (lit : string) : bool :=
  match v with
  | Some (JStr s) => String.eqb s lit
  | _ => false
  end.

(** *** WebCrypto: [crypto.subtle] for HMAC with SHA-256 *)

Record Algorithm : Type := { alg_name : string; alg_hash : string }.

Record CryptoKey : Type := {
  key_algorithm : Algorithm;
  key_extractable : bool;
  key_usages : list string;
  key_data : list Z
}.

(** [crypto.subtle.importKey('raw', keyData, algorithm, extractable,
    usages)] for an HMAC algorithm: a usage other than [sign] or [verify]
    is a [SyntaxError], key data of length zero is a [DataError]. *)
Definition importKey (format : string) (keyData : list Z) (algorithm : Algorithm)
    (extractable : bool) (usages : list string) : Result CryptoKey :=
  if negb (forallb (fun u => String.eqb u "sign" || String.eqb u "verify") usages)
  then Throw SyntaxError
  else if (length keyData =? 0)%nat then Throw DataError
  else Ok {| key_algorithm := algorithm; key_extractable := extractable;
             key_usages := usages; key_data := keyData |}.

(** [crypto.subtle.verify('HMAC', key, signature, data)]: the MAC of
    [data] under the key is computed and compared with [signature]. *)
Definition verify (name : string) (key : CryptoKey) (signature data : list Z)
    : Result bool :=
  Ok (bytes_eqb signature (SHA256.hmac (key_data key) data)).

End JS.

Export JS.

Notation "'let*' x ':=' m 'in' k" := (JS.bind m (fun x => k))
  (at level 10, x name, m at level 100, k at level 200).

(** ** Express: requests, responses, and what a middleware does with them *)

Module Express.

(** A request as the handlers see it, after [express.json()] has parsed
    the body. Header names are lower case. *)
Record Request : Type := {
  method : string;
  path : string;
  headers : gmap string string;
  body : JSON
}.

(** [req.header(name)] *)
Definition header (req : Request) (name : string) : option string :=
  headers req !! name.

Inductive ResponseBody : Type :=
| Send (text : string)        (* res.send(text) *)
| Json (value : JSON).        (* res.json(value) *)

(** [res.status(code).send(..)] or [res.status(code).json(..)] *)
Record Response : Type := { status : Z; content : ResponseBody }.

(** A route path given as a plain string: the router compares without
    regard to the case of letters and allows one trailing slash. *)
Definition toLowerCase_unit (c : ascii) : ascii :=
  let n := code c in
  if (65 <=? n) && (n <=? 90) then chr (n + 32) else c.

Fixpoint toLowerCase (s : string) : string :=
  match s with
  | EmptyString => EmptyString
  | String c s' => String (toLowerCase_unit c) (toLowerCase s')
  end.

Definition route_matches (route path : string) : bool :=
  let p := toLowerCase path in
  let r := toLowerCase route in
  String.eqb p r || String.eqb p (r +:+ "/").

Inductive Middleware : Type :=
| Next                        (* next() *)
| Respond (res : Response).

(** How a request ends: a response of the application, Express's own
    answer when no route matches, or an exception that a handler let
    escape to Express's error handling. *)
Inductive Outcome : Type :=
| Responded (res : Response)
| NotFound
| Uncaught (e : Error).

End Express.

Export Express.

(** A settled promise. *)
Inductive Promise (A : Type) : Type :=
| Resolved (a : A)
| Rejected (e : Error).
Arguments Resolved {A} a.
Arguments Rejected {A} e.

(** [config/envs]: the values read from the environment at start-up. *)
Record Envs : Type := {
  PORT : Z;
  SECRET_TOKEN : string;
  DISCORT_WEBHOOK_URL : string
}.

(** What [fetch(url, { method: "POST", headers, body })] comes to: a
    response with its status code, or a rejection (network failure). *)
Inductive FetchResult : Type :=
| FetchResponse (status : Z)
| FetchRejected.

(** [resp.ok] *)
Definition ok (status : Z) : bool := (200 <=? status) && (status <=? 299).

(** Calls on the two services, in the order they are made. *)
Inductive Call : Type :=
| CallOnStar (payload : JSON)
| CallOnIssue (payload : JSON)
| CallNotify (message : string).

(** ** [GithubSha256Middleware] *)

Module GithubSha256Middleware.

(** The [for] loop of [hexToBytes]; [fuel] bounds the iterations. *)
Fixpoint hexToBytes_loop (fuel : nat) (hex : string) (i index : nat)
    (bytes : list Z) : list Z :=
  match fuel with
  | O => bytes
  | S fuel' =>
      if (i <? String.length hex)%nat then
        let c := slice hex i (i + 2) in
        let b := parseInt c 16 in
        let bytes := Uint8Array_set bytes index b in
        hexToBytes_loop fuel' hex (i + 2) (index + 1) bytes
      else bytes
  end.

(** [hexToBytes(hex)]; [hex] is [undefined] when the header holds no [=],
    and then [hex.length] throws. For a [hex] of odd length, [hex.length / 2]
    is not an integer and [new Uint8Array] keeps its integer part. *)
Definition hexToBytes (hex : option string) : Result (list Z) :=
  match hex with
  | None => Throw TypeError
  | Some hex =>
      let len := (String.length hex / 2)%nat in
      let bytes := Uint8Array len in
      Ok (hexToBytes_loop (String.length hex) hex 0 0 bytes)
  end.

(** [verifySignature(secret, header, payload)]; what the [catch] block
    writes with [console.error] is left out. *)
Definition verifySignature (secret header payload : string) : bool :=
  try_catch
    (let parts := split "=" header in
     let sigHex := parts !! 1%nat in
     let algorithm := {| alg_name := "HMAC"; alg_hash := "SHA-256" |} in
     let keyBytes := encode secret in
     let extractable := false in
     let* key := importKey "raw" keyBytes algorithm extractable ["sign"; "verify"] in
     let* sigBytes := hexToBytes sigHex in
     let dataBytes := encode payload in
     let* equal := verify (alg_name algorithm) key sigBytes dataBytes in
     Ok equal)
    (fun error => false).

Section WithEnvs.
Variable envs : Envs.

Definition verifyGithubSignature (req : Request) : Middleware :=
  let xHubSignature :=
    match headers req !! "x-hub-signature-256" with
    | Some value => value
    | None => "undefined"
    end in
  let body := JSON_stringify (body req) in
  let secret := SECRET_TOKEN envs in
  let isValid := verifySignature secret xHubSignature body in
  if isValid then Next
  else Respond {| status := 401;
                  content := Json (JObj [("error", JStr "Invalid signature")]) |}.

End WithEnvs.

End GithubSha256Middleware.

(** ** [GitHubService] *)

Module GitHubService.

Definition onStar (payload : JSON) : Result string :=
  let* action := Get (Some payload) "action" in
  let* sender := Get (Some payload) "sender" in
  let* repository := Get (Some payload) "repository" in
  let* login := Get sender "login" in
  let* login := ToString login in
  let* action := ToString action in
  let* full_name := Get repository "full_name" in
  let* full_name := ToString full_name in
  Ok ("User " +:+ login +:+ " " +:+ action +:+ " star on " +:+ full_name).

Definition onIssue (payload : JSON) : Result string :=
  let* action := Get (Some payload) "action" in
  let* issue := Get (Some payload) "issue" in
  if strictEqualsString action "opened" then
    let* title := Get issue "title" in
    let* title := ToString title in
    Ok ("An issue was opened with this title " +:+ title)
  else if strictEqualsString action "closed" then
    let* user := Get issue "user" in
    let* login := Get user "login" in
    let* login := ToString login in
    Ok ("An issue was closed by " +:+ login)
  else if strictEqualsString action "reopened" then
    let* user := Get issue "user" in
    let* login := Get user "login" in
    let* login := ToString login in
    Ok ("An issue was reopened by " +:+ login)
  else
    let* action := ToString action in
    Ok ("Unhandled action for the issue event " +:+ action).

End GitHubService.

(** ** [DiscordService] *)

Module DiscordService.

Section WithWorld.
Variable envs : Envs.
Variable fetch : string -> string -> FetchResult.

Definition discordWebhookUrl : string := DISCORT_WEBHOOK_URL envs.

Definition notify (message : string) : Promise bool :=
  let body := JObj [("content", JStr message)] in
  match fetch discordWebhookUrl (JSON_stringify body) with
  | FetchResponse status =>
      if negb (ok status) then Resolved false
      else Resolved true
  | FetchRejected => Resolved false           (* catch (error) *)
  end.

End WithWorld.

End DiscordService.

(** ** [GitHubController] *)

Module GitHubController.

(** The [switch (githubEvent)] of [webHookHandler]: the message, and the
    calls made on [GitHubService]. *)
Definition dispatch (githubEvent : string) (payload : JSON)
    : Result string * list Call :=
  if String.eqb githubEvent "star" then
    (GitHubService.onStar payload, [CallOnStar payload])
  else if String.eqb githubEvent "issues" then
    (GitHubService.onIssue payload, [CallOnIssue payload])
  else
    (Ok ("Unknown event " +:+ githubEvent), []).

Section WithWorld.
Variable envs : Envs.
Variable fetch : string -> string -> FetchResult.

(** The handler; what it writes with [console.log] is left out. An
    exception of a summarizer leaves the handler before [notify] is called. *)
Definition webHookHandler (req : Request) : Outcome * list Call :=
  let githubEvent := default "unknown" (header req "x-github-event") in
  let payload := body req in
  let '(message, calls) := dispatch githubEvent payload in
  match message with
  | Throw e => (Uncaught e, calls)
  | Ok message =>
      let calls := calls ++ [CallNotify message] in
      match DiscordService.notify envs fetch message with
      | Resolved _ =>                                   (* .then(() => ...) *)
          (Responded {| status := 202; content := Send "Accepted" |}, calls)
      | Rejected _ =>                                   (* .catch(() => ...) *)
          (Responded {| status := 500;
                        content := Json (JObj [("error", JStr "internal server error")]) |},
           calls)
      end
  end.

End WithWorld.

End GitHubController.

(** ** [main]: the body parser, the middleware and the route *)

(** What [express.json()] makes of the raw body of a request: the parsed
    value it stores in [req.body] (the empty object when there is no JSON
    body to parse), or an error with its status (400 for text that is not
    JSON, 413, 415) that it hands to Express, which answers the request
    with that status. The parser is library code: its result is given. *)
Inductive BodyParser : Type :=
| BodyParsed (value : JSON)
| BodyRefused (status : Z).

(** A request as it reaches the application. *)
Record Incoming : Type := {
  in_method : string;
  in_path : string;
  in_headers : gmap string string;
  in_body : BodyParser
}.

(** How the application answers: the body parser's error, or what the
    middleware and the route make of the parsed request. *)
Inductive Answer : Type :=
| ParserError (status : Z)
| Handled (outcome : Outcome).

Section App.
Variable envs : Envs.
Variable fetch : string -> string -> FetchResult.

(** The part of the application after the body parser, on a request whose
    body [express.json()] has parsed:
    [app.use(GithubSha256Middleware.verifyGithubSignature)] and
    [app.post("/api/github", controller.webHookHandler)]. *)
Definition main (req : Request) : Outcome * list Call :=
  match GithubSha256Middleware.verifyGithubSignature envs req with
  | Respond res => (Responded res, [])
  | Next =>
      if String.eqb (method req) "POST" && route_matches "/api/github" (path req)
      then GitHubController.webHookHandler envs fetch req
      else (NotFound, [])
  end.

(** The application [app] that [main] builds: [app.use(express.json())]
    first, then the middleware and the route. *)
Definition express_app (inc : Incoming) : Answer * list Call :=
  match in_body inc with
  | BodyRefused status => (ParserError status, [])
  | BodyParsed value =>
      let '(outcome, calls) :=
        main {| method := in_method inc; path := in_path inc;
                headers := in_headers inc; body := value |} in
      (Handled outcome, calls)
  end.

End App.

(** ** Vocabulary of the statements *)

(** The sender's encoding of a digest: two lower-case hexadecimal digits
    per byte. *)
Definition hex (bytes : list Z) : string :=
  fold_right (fun b s => hex2 b +:+ s) EmptyString bytes.

(** [HMAC-SHA256(secret, body)] as the middleware keys and feeds it. *)
Definition HMAC_SHA256 (secret body : string) : list Z :=
  SHA256.hmac (encode secret) (encode body).

(** An entry of a [Uint8Array]. *)
Definition byte (b : Z) : Prop := 0 <= b < 256.

(** The code unit [c] occurs in [s]. *)
Fixpoint has (c : ascii) (s : string) : bool :=
  match s with
  | EmptyString => false
  | String c' s' => Ascii.eqb c' c || has c s'
  end.

(** [sub] occurs in [s]. *)
Definition includes (s sub : string) : Prop :=
  exists pre post, s = pre +:+ sub +:+ post.

(** The slices [hex.slice(i, i + 2)] for [i = 0, 2, 4, ...]. *)
Fixpoint pairs (s : string) : list string :=
  match s with
  | String a (String b rest) => String a (String b EmptyString) :: pairs rest
  | String a EmptyString => [String a EmptyString]
  | EmptyString => []
  end.

(** The byte stored for one slice. *)
Definition decodePair (c : string) : Z := ToUint8 (parseInt c 16).

(** The bytes [hexToBytes] returns, slice by slice. *)
Definition decodePairs (s : string) : list Z :=
  take (String.length s / 2)%nat (map decodePair (pairs s)).

Definition isHexDigit (c : ascii) : bool :=
  match radixDigit 16 c with
  | Some _ => true
  | None => false
  end.

Fixpoint allHex (s : string) : bool :=
  match s with
  | EmptyString => true
  | String c s' => isHexDigit c && allHex s'
  end.


(** *** Concrete deliveries *)

Definition envs0 : Envs :=
  {| PORT := 3000; SECRET_TOKEN := "secret";
     DISCORT_WEBHOOK_URL := "https://discord.com/api/webhooks/ID/TOKEN" |}.

Definition fetch_delivered : string -> string -> FetchResult :=
  fun _ _ => FetchResponse 204.
Definition fetch_not_found : string -> string -> FetchResult :=
  fun _ _ => FetchResponse 404.
Definition fetch_network_error : string -> string -> FetchResult :=
  fun _ _ => FetchRejected.

Definition delivery (hs : list (string * string)) (payload : JSON) : Request :=
  {| method := "POST"; path := "/api/github";
     headers := list_to_map hs; body := payload |}.

Definition incoming (hs : list (string * string)) (parsed : BodyParser) : Incoming :=
  {| in_method := "POST"; in_path := "/api/github";
     in_headers := list_to_map hs; in_body := parsed |}.

(** HMAC-SHA256 of the two bytes [{}] under the key [secret]. *)
Definition sig_empty_object : string :=
  "sha256=77325902caca812dc259733aacd046b73817372c777b8d95b402647474516e13".

(** HMAC-SHA256 of the three bytes [{ }] under the key [secret]. *)
Definition sig_spaced_object : string :=
  "sha256=a476607791849d03ca57e41b009518ac877b6fb0f926b234d4af18dd13190034".

Definition star_alice : JSON :=
  JObj [("action", JStr "created");
        ("sender", JObj [("login", JStr "alice")]);
        ("repository", JObj [("full_name", JStr "org/repo")])].

(** * Properties *)

(** ** The hash on known vectors *)

Lemma K_first_last : length SHA256.K = 64%nat
  /\ SHA256.K !! 0%nat = Some 0x428a2f98 /\ SHA256.K !! 63%nat = Some 0xc67178f2.
Proof. by vm_compute. Qed.

Lemma sha256_abc :
  hex (SHA256.sha256 (encode "abc"))
  = "ba7816bf8f01cfea414140de5dae2223b00361a396177a9cb410ff61f20015ad".
Proof. by vm_compute. Qed.

Lemma hmac_quick_brown_fox :
  hex (HMAC_SHA256 "key" "The quick brown fox jumps over the lazy dog")
  = "f7bc83f430538424b13298e6aa6fb143ef4d59a14946175997479dbc2d1a3cd8".
Proof. by vm_compute. Qed.

(** The fuel given to [blocks] and to [decimal] is enough: with more of it
    the result is the same. *)
Lemma blocks_fuel (f1 : nat) : forall f2 h bs,
  (length bs <= f1)%nat -> (length bs <= f2)%nat ->
  SHA256.blocks f1 h bs = SHA256.blocks f2 h bs.
Proof.
  induction f1 as [|f1 IH]; intros f2 h bs H1 H2.
  - destruct bs; [|simpl in H1; lia]. by destruct f2.
  - destruct bs as [|b bs].
    { by destruct f2. }
    destruct f2 as [|f2]; [simpl in H2; lia|].
    cbn [SHA256.blocks].
    apply IH; rewrite length_drop; cbn [length] in *; lia.
Qed.

Lemma decimal_fuel (f1 : nat) : forall f2 n acc,
  0 <= n < 2 ^ Z.of_nat (S f1) -> n < 2 ^ Z.of_nat (S f2) ->
  decimal (S f1) n acc = decimal (S f2) n acc.
Proof.
  induction f1 as [|f1 IH]; intros f2 n acc H1 H2; cbn [decimal].
  - destruct (Z.ltb_spec n 10); [done|].
    change (2 ^ Z.of_nat 1) with 2 in H1. lia.
  - destruct (Z.ltb_spec n 10) as [|Hn]; [done|].
    assert (Hhalf : forall f : nat, n < 2 ^ Z.of_nat (S f) -> n / 10 < 2 ^ Z.of_nat f).
    { intros f Hf. rewrite Nat2Z.inj_succ, Z.pow_succ_r in Hf by lia.
      apply Z.div_lt_upper_bound; lia. }
    destruct f2 as [|f2].
    + change (2 ^ Z.of_nat 1) with 2 in H2. lia.
    + apply IH.
      * split; [apply Z.div_pos; lia | apply Hhalf, H1].
      * apply Hhalf, H2.
Qed.

(** ** Strings *)

Lemma append_cons (c : ascii) (s t : string) :
  String c s +:+ t = String c (s +:+ t).
Proof. reflexivity. Qed.

Lemma append_empty_l (t : string) : EmptyString +:+ t = t.
Proof. reflexivity. Qed.

Lemma append_empty_r (s : string) : s +:+ EmptyString = s.
Proof. induction s as [|c s IH]; [done | by rewrite append_cons, IH]. Qed.

Lemma append_assoc (a b c : string) : (a +:+ b) +:+ c = a +:+ (b +:+ c).
Proof. induction a as [|x a IH]; [done | by rewrite !append_cons, IH]. Qed.

Lemma length_append (a b : string) :
  String.length (a +:+ b) = (String.length a + String.length b)%nat.
Proof. induction a as [|x a IH]; [done | rewrite append_cons; simpl; by rewrite IH]. Qed.

Lemma string_pair_ind (P : string -> Prop) :
  P EmptyString ->
  (forall a, P (String a EmptyString)) ->
  (forall a b rest, P rest -> P (String a (String b rest))) ->
  forall s, P s.
Proof.
  intros H0 H1 H2 s.
  assert (H : P s /\ forall a, P (String a s)).
  { induction s as [|b s [IHs IHc]]; split; auto. }
  apply H.
Qed.

Lemma str_drop_append (pre rest : string) :
  str_drop (String.length pre) (pre +:+ rest) = rest.
Proof. induction pre as [|c pre IH]; [done | by rewrite append_cons]. Qed.

Lemma slice_append (pre rest : string) (n : nat) :
  slice (pre +:+ rest) (String.length pre) (String.length pre + n)
  = str_take n rest.
Proof.
  unfold slice. rewrite str_drop_append. f_equal. lia.
Qed.

Lemma has_append (c : ascii) (a b : string) :
  has c (a +:+ b) = has c a || has c b.
Proof.
  induction a as [|x a IH]; [done|].
  rewrite append_cons. simpl. rewrite IH. by rewrite orb_assoc.
Qed.

(** *** [split] *)

Lemma split_not_nil (sep : ascii) (s : string) : split sep s <> [].
Proof.
  induction s as [|c s IH]; simpl; [done|].
  destruct (Ascii.eqb c sep); [done|]. by destruct (split sep s).
Qed.

Lemma split_no_sep (sep : ascii) (s : string) :
  has sep s = false -> split sep s = [s].
Proof.
  induction s as [|c s IH]; simpl; [done|].
  intros [Hc Hs]%orb_false_iff. rewrite Hc, (IH Hs). done.
Qed.

Lemma split_append_sep (sep : ascii) (a b : string) :
  has sep a = false -> split sep (a +:+ String sep b) = a :: split sep b.
Proof.
  induction a as [|c a IH].
  - intros _. rewrite append_empty_l. simpl. by rewrite Ascii.eqb_refl.
  - intros H. simpl in H. apply orb_false_iff in H as [Hc Ha].
    rewrite append_cons. simpl. by rewrite Hc, (IH Ha).
Qed.

(** ** [hexToBytes] slice by slice *)

Lemma hexToBytes_loop_done fuel hex i index bytes :
  (String.length hex <= i)%nat ->
  GithubSha256Middleware.hexToBytes_loop fuel hex i index bytes = bytes.
Proof.
  intros Hi. destruct fuel; simpl; [done|].
  destruct (Nat.ltb_spec i (String.length hex)); [lia | done].
Qed.

Lemma hexToBytes_loop_full fuel hex : forall i index bytes,
  (length bytes <= index)%nat ->
  GithubSha256Middleware.hexToBytes_loop fuel hex i index bytes = bytes.
Proof.
  induction fuel as [|fuel IH]; intros i index bytes Hlen; simpl; [done|].
  destruct (i <? String.length hex)%nat; [|done].
  unfold Uint8Array_set. rewrite list_insert_ge by done.
  apply IH. lia.
Qed.

Lemma hexToBytes_loop_spec fuel : forall rest pre done todo,
  (String.length rest <= fuel)%nat ->
  String.length pre = (2 * length done)%nat ->
  GithubSha256Middleware.hexToBytes_loop fuel (pre +:+ rest)
    (2 * length done) (length done) (done ++ todo)
  = done ++ take (length todo) (map decodePair (pairs rest))
         ++ drop (length (pairs rest)) todo.
Proof.
  induction fuel as [|fuel IH]; intros rest pre done todo Hfuel Hpre.
  - destruct rest; simpl in Hfuel; [|lia]. by simpl; rewrite take_nil.
  - rewrite <- Hpre. cbn [GithubSha256Middleware.hexToBytes_loop].
    rewrite length_append.
    destruct rest as [|a [|b rest]].
    + simpl String.length.
      destruct (Nat.ltb_spec (String.length pre) (String.length pre + 0)); [lia|].
      by simpl; rewrite take_nil.
    + simpl String.length.
      destruct (Nat.ltb_spec (String.length pre) (String.length pre + 1)); [|lia].
      rewrite slice_append.
      rewrite hexToBytes_loop_done by (rewrite length_append; simpl; lia).
      unfold Uint8Array_set. simpl pairs. simpl map.
      destruct todo as [|t todo].
      * rewrite list_insert_ge by (rewrite length_app; simpl; lia). done.
      * rewrite insert_app_r_alt by lia.
        replace (length done - length done)%nat with 0%nat by lia.
        simpl. by rewrite take_nil, drop_0.
    + simpl String.length.
      destruct (Nat.ltb_spec (String.length pre) (String.length pre + S (S (String.length rest)))); [|lia].
      rewrite slice_append.
      unfold Uint8Array_set. simpl pairs. simpl map. simpl str_take.
      fold (decodePair (String a (String b EmptyString))).
      set (d := decodePair (String a (String b EmptyString))).
      destruct todo as [|t todo].
      * rewrite list_insert_ge by (rewrite length_app; simpl; lia).
        rewrite hexToBytes_loop_full by (rewrite length_app; simpl; lia).
        done.
      * rewrite insert_app_r_alt by lia.
        replace (length done - length done)%nat with 0%nat by lia.
        simpl insert.
        replace (String a (String b rest))
          with (String a (String b EmptyString) +:+ rest) by done.
        rewrite <- append_assoc.
        replace (done ++ d :: todo) with ((done ++ [d]) ++ todo)
          by (by rewrite <- app_assoc).
        replace (String.length pre + 2)%nat with (2 * length (done ++ [d]))%nat
          by (rewrite length_app; simpl; lia).
        replace (length done + 1)%nat with (length (done ++ [d]))
          by (rewrite length_app; simpl; lia).
        rewrite IH.
        -- simpl. by rewrite <- app_assoc.
        -- simpl in Hfuel. lia.
        -- rewrite length_append, length_app. simpl. lia.
Qed.

Lemma pairs_length (s : string) :
  (String.length s <= 2 * length (pairs s))%nat.
Proof.
  induction s as [| a | a b rest IH] using string_pair_ind; simpl in *; lia.
Qed.

(** [hexToBytes(hex)] is the list of the bytes stored for the slices of
    [hex], cut at half the length of [hex]: the slice of a last, odd code
    unit is stored outside the array. *)
Lemma hexToBytes_decodePairs (s : string) :
  GithubSha256Middleware.hexToBytes (Some s) = Ok (decodePairs s).
Proof.
  unfold GithubSha256Middleware.hexToBytes, decodePairs, Uint8Array. f_equal.
  pose proof (hexToBytes_loop_spec (String.length s) s EmptyString []
                (replicate (String.length s / 2) 0)) as H.
  rewrite append_empty_l in H.
  change (2 * length (@nil Z))%nat with 0%nat in H.
  change (length (@nil Z)) with 0%nat in H.
  change ([] ++ ?l) with l in H.
  rewrite H by done.
  rewrite length_replicate.
  rewrite drop_ge; [by rewrite app_nil_r|].
  rewrite length_replicate. pose proof (pairs_length s).
  apply Nat.Div0.div_le_upper_bound. lia.
Qed.

Lemma decodePairs_length (s : string) :
  length (decodePairs s) = (String.length s / 2)%nat.
Proof.
  unfold decodePairs. rewrite length_take, length_map.
  pose proof (pairs_length s).
  assert (String.length s / 2 <= length (pairs s))%nat
    by (apply Nat.Div0.div_le_upper_bound; lia).
  lia.
Qed.

(** ** Checks over all code units and all bytes, by evaluation *)

Lemma all_ascii (P : ascii -> bool) :
  forallb P (map ascii_of_nat (seq 0 256)) = true -> forall c, P c = true.
Proof.
  intros H c. rewrite forallb_forall in H. apply H.
  rewrite <- (ascii_nat_embedding c). apply in_map, in_seq.
  pose proof (nat_ascii_bounded c). lia.
Qed.

Lemma all_bytes (P : Z -> bool) :
  forallb P (map Z.of_nat (seq 0 256)) = true -> forall b, byte b -> P b = true.
Proof.
  intros H b Hb. rewrite forallb_forall in H. apply H.
  rewrite <- (Z2Nat.id b) by (unfold byte in Hb; lia). apply in_map, in_seq.
  unfold byte in Hb. lia.
Qed.

Lemma decodePair_hex2 (b : Z) : byte b -> decodePair (hex2 b) = b.
Proof.
  intros Hb. apply Z.eqb_eq.
  revert b Hb. apply (all_bytes (fun b => decodePair (hex2 b) =? b)).
  by vm_compute.
Qed.

Lemma has_eq_hex2 (b : Z) : byte b -> has "=" (hex2 b) = false.
Proof.
  intros Hb. apply negb_true_iff.
  revert b Hb. apply (all_bytes (fun b => negb (has "=" (hex2 b)))).
  by vm_compute.
Qed.

(** ** The sender's hexadecimal encoding, decoded by [hexToBytes] *)

Lemma hex_cons (b : Z) (bs : list Z) : hex (b :: bs) = hex2 b +:+ hex bs.
Proof. reflexivity. Qed.

Lemma pairs_hex (bs : list Z) : pairs (hex bs) = map hex2 bs.
Proof.
  induction bs as [|b bs IH]; [done|].
  rewrite hex_cons. unfold hex2 at 1.
  rewrite !append_cons, append_empty_l. simpl. by rewrite IH.
Qed.

Lemma length_hex (bs : list Z) : String.length (hex bs) = (2 * length bs)%nat.
Proof.
  induction bs as [|b bs IH]; [done|].
  rewrite hex_cons, length_append, IH. simpl. lia.
Qed.

Lemma has_eq_hex (bs : list Z) : Forall byte bs -> has "=" (hex bs) = false.
Proof.
  induction 1 as [|b bs Hb _ IH]; [done|].
  by rewrite hex_cons, has_append, has_eq_hex2, IH.
Qed.

Lemma decodePairs_hex (bs : list Z) : Forall byte bs -> decodePairs (hex bs) = bs.
Proof.
  intros Hbs. unfold decodePairs.
  rewrite length_hex, pairs_hex, map_map.
  replace (2 * length bs / 2)%nat with (length bs)
    by (symmetry; rewrite Nat.mul_comm; apply Nat.div_mul; lia).
  rewrite take_ge by (by rewrite length_map).
  induction Hbs as [|b bs Hb _ IH]; [done|].
  simpl. by rewrite decodePair_hex2, IH.
Qed.

(** ** The digest: 32 bytes *)

Lemma bytes_of_word_bytes (x : Z) : Forall byte (SHA256.bytes_of_word x).
Proof.
  unfold SHA256.bytes_of_word, byte.
  repeat constructor; apply Z.mod_pos_bound; lia.
Qed.

Lemma sha256_bytes (msg : list Z) : Forall byte (SHA256.sha256 msg).
Proof.
  unfold SHA256.sha256, SHA256.digest_bytes.
  repeat (apply Forall_app; split); apply bytes_of_word_bytes.
Qed.


Lemma hmac_bytes (key msg : list Z) : Forall byte (SHA256.hmac key msg).
Proof. apply sha256_bytes. Qed.


(** ** What [verifySignature] accepts *)

Lemma encode_empty (s : string) : encode s = [] <-> s = EmptyString.
Proof.
  split; [|by intros ->].
  destruct s as [|c s]; [done|]. simpl. unfold encode_unit.
  by destruct (code c <? 128).
Qed.

(** The verifier answers [true] exactly when the secret is not empty, the
    header has a second [=]-separated part, and that part decodes to the
    MAC of the payload. *)
Lemma verifySignature_true (secret header payload : string) :
  GithubSha256Middleware.verifySignature secret header payload = true
  <-> secret <> EmptyString
      /\ exists sigHex, split "=" header !! 1%nat = Some sigHex
                        /\ decodePairs sigHex = HMAC_SHA256 secret payload.
Proof.
  unfold GithubSha256Middleware.verifySignature, HMAC_SHA256, importKey.
  change (forallb _ ["sign"; "verify"]) with true. cbn [negb].
  destruct (Nat.eqb_spec (length (encode secret)) 0) as [Hlen|Hlen].
  - apply length_zero_iff_nil, encode_empty in Hlen. subst secret.
    simpl. split; [done | by intros [? _]].
  - assert (Hsecret : secret <> EmptyString).
    { intros ->. by apply Hlen. }
    cbn [bind try_catch key_data].
    destruct (split "=" header !! 1%nat) as [sigHex|] eqn:Hparts.
    + rewrite hexToBytes_decodePairs. cbn [bind try_catch verify key_data].
      unfold bytes_eqb. split.
      * intros Heq%bool_decide_eq_true. split; [done|]. by exists sigHex.
      * intros [_ (sigHex' & [= <-] & Heq)]. by apply bool_decide_eq_true.
    + simpl. split; [done|]. by intros [_ (? & ? & _)].
Qed.

Lemma verifySignature_false (secret header payload : string) :
  GithubSha256Middleware.verifySignature secret header payload = false
  <-> secret = EmptyString
      \/ split "=" header !! 1%nat = None
      \/ exists sigHex, split "=" header !! 1%nat = Some sigHex
                        /\ decodePairs sigHex <> HMAC_SHA256 secret payload.
Proof.
  rewrite <- not_true_iff_false, verifySignature_true.
  destruct secret as [|c secret].
  - split; [by left | by intros _ [? _]].
  - destruct (split "=" header !! 1%nat) as [sigHex|].
    + destruct (decide (decodePairs sigHex = HMAC_SHA256 (String c secret) payload))
        as [Heq|Hne].
      * split.
        -- intros Hn. destruct Hn. split; [done|]. by exists sigHex.
        -- intros [?|[?|(s' & [= <-] & Hn)]]; done.
      * split.
        -- intros _. right. right. by exists sigHex.
        -- intros _ [_ (s' & [= <-] & Heq)]. done.
    + split; [by right; left|]. by intros _ [_ (? & ? & _)].
Qed.





(** ** The signature verifier *)

(** C3 (amended). For every secret other than the empty string and every
    body, the header made of [sha256=] and the hexadecimal encoding of
    HMAC-SHA256(secret, body) is accepted. *)
Theorem verifySignature_accepts_own_mac (secret body : string) :
  secret <> EmptyString ->
  GithubSha256Middleware.verifySignature secret
    ("sha256=" +:+ hex (HMAC_SHA256 secret body)) body = true.
Proof.
  intros Hsecret. apply verifySignature_true. split; [done|].
  exists (hex (HMAC_SHA256 secret body)). split.
  - change ("sha256=" +:+ ?h) with ("sha256" +:+ String "=" h).
    rewrite split_append_sep by done.
    rewrite split_no_sep by apply has_eq_hex, hmac_bytes. done.
  - apply decodePairs_hex, hmac_bytes.
Qed.

Lemma verifySignature_accepts_own_mac_witness :
  "secret" <> EmptyString /\
  GithubSha256Middleware.verifySignature "secret"
    ("sha256=" +:+ hex (HMAC_SHA256 "secret" "{}")) "{}" = true.
Proof.
  split; [discriminate|].
  apply (verifySignature_accepts_own_mac "secret" "{}"). discriminate.
Defined.

(** C3 as stated fails for the empty secret: [importKey] refuses key data
    of length zero, the exception is caught, and the correctly built header
    is turned down. *)
Lemma verifySignature_empty_secret :
  "sha256=" +:+ hex (HMAC_SHA256 "" "{}")
    = "sha256=22f8eea909400af98adf3681a9f31923ef6b7fcba4abb553d92823a3e9d5c25e"
  /\ GithubSha256Middleware.verifySignature ""
       ("sha256=" +:+ hex (HMAC_SHA256 "" "{}")) "{}" = false.
Proof. split; by vm_compute. Qed.




(** ** The bytes that are MACed by the middleware *)

Lemma code_chr (z : Z) : byte z -> code (chr z) = z.
Proof.
  intros Hz. apply Z.eqb_eq. revert z Hz.
  apply (all_bytes (fun z => code (chr z) =? z)). by vm_compute.
Qed.

Lemma code_inj (a b : ascii) : code a = code b -> a = b.
Proof.
  unfold code. intros H%(inj Z.of_N).
  by rewrite <- (ascii_N_embedding a), <- (ascii_N_embedding b), H.
Qed.

Lemma encode_cons_ascii (s : string) (b : Z) (bs : list Z) :
  encode s = b :: bs -> b < 128 ->
  exists c r, s = String c r /\ code c = b /\ encode r = bs.
Proof.
  destruct s as [|c r]; [done|]. simpl. unfold encode_unit.
  destruct (Z.ltb_spec (code c) 128) as [Hc|Hc].
  - intros [= <- <-] _. by exists c, r.
  - intros [= <- _] Hb. exfalso.
    assert (Hbit : Z.testbit (Z.lor 192 (Z.shiftr (code c) 6)) 7 = true).
    { rewrite Z.lor_spec. done. }
    assert (Hlow : Z.lor 192 (Z.shiftr (code c) 6) < 2 ^ 7) by (simpl; lia).
    assert (Hnn : 0 <= Z.lor 192 (Z.shiftr (code c) 6)).
    { apply Z.lor_nonneg. split; [lia|]. apply Z.shiftr_nonneg. lia. }
    rewrite (Z.bits_above_log2 _ 7) in Hbit; [done | done |].
    destruct (Z.eq_dec (Z.lor 192 (Z.shiftr (code c) 6)) 0) as [H0|H0].
    + rewrite H0. simpl. lia.
    + apply Z.log2_lt_pow2; lia.
Qed.

Lemma encode_spaced_object (s : string) : encode s = encode "{ }" -> s = "{ }".
Proof.
  change (encode "{ }") with [123; 32; 125]. intros H.
  apply encode_cons_ascii in H as (c1 & r1 & -> & H1 & H); [|lia].
  apply encode_cons_ascii in H as (c2 & r2 & -> & H2 & H); [|lia].
  apply encode_cons_ascii in H as (c3 & r3 & -> & H3 & H); [|lia].
  apply encode_empty in H as ->.
  by rewrite (code_inj c1 "{" H1), (code_inj c2 " " H2), (code_inj c3 "}" H3).
Qed.

Lemma decimal_head (fuel : nat) : forall n acc,
  decimal fuel n acc = acc
  \/ exists d rest, decimal fuel n acc = String (chr (48 + d mod 10)) rest.
Proof.
  induction fuel as [|fuel IH]; intros n acc; simpl; [by left|].
  destruct (n <? 10).
  - right. by exists n, acc.
  - destruct (IH (n / 10) (String (chr (48 + n mod 10)) acc)) as [->|H].
    + right. by exists n, acc.
    + by right.
Qed.

Lemma digit_not_brace (d : Z) (rest tail : string) :
  String (chr (48 + d mod 10)) rest <> String "{" tail.
Proof.
  intros [= H _]. apply (f_equal code) in H.
  pose proof (Z.mod_pos_bound d 10).
  rewrite code_chr in H by (unfold byte; lia).
  change (code "{") with 123 in H. lia.
Qed.

(** No parsed value is re-serialized with a space after the opening brace. *)
Lemma JSON_stringify_not_spaced (v : JSON) : JSON_stringify v <> "{ }".
Proof.
  destruct v as [| b | n | s | items | fields]; simpl.
  - discriminate.
  - destruct b; discriminate.
  - unfold Number_toString.
    destruct (int_value n <? 0); [discriminate|].
    destruct (decimal_head (S (Z.to_nat (Z.log2 (Z.abs (int_value n)))))
                (Z.abs (int_value n)) EmptyString)
      as [->|(d & rest & ->)]; [discriminate | apply digit_not_brace].
  - discriminate.
  - rewrite append_cons. discriminate.
  - rewrite append_cons, append_empty_l.
    destruct fields as [|[k v] fields]; [discriminate|].
    simpl map. unfold QuoteJSONString at 1. cbn [fst snd join].
    destruct (map _ fields); rewrite !append_cons; discriminate.
Qed.

(** The bytes the middleware MACs are the UTF-8 bytes of
    [JSON.stringify(req.body)]: when the header carries the MAC of some
    bytes [raw] and the secret is not empty, the request is passed on
    exactly when the MAC of the re-serialized body equals that MAC, as it
    does when [raw] is the re-serialized text itself. *)
Theorem verifyGithubSignature_macs_stringified_body
    (envs : Envs) (req : Request) (raw : list Z) :
  SECRET_TOKEN envs <> EmptyString ->
  headers req !! "x-hub-signature-256"
    = Some ("sha256=" +:+ hex (SHA256.hmac (encode (SECRET_TOKEN envs)) raw)) ->
  (GithubSha256Middleware.verifyGithubSignature envs req = Next
   <-> SHA256.hmac (encode (SECRET_TOKEN envs)) (encode (JSON_stringify (body req)))
       = SHA256.hmac (encode (SECRET_TOKEN envs)) raw)
  /\ (encode (JSON_stringify (body req)) = raw ->
      GithubSha256Middleware.verifyGithubSignature envs req = Next).
Proof.
  intros Hsecret Hheader.
  assert (Hiff : GithubSha256Middleware.verifyGithubSignature envs req = Next
                 <-> SHA256.hmac (encode (SECRET_TOKEN envs))
                       (encode (JSON_stringify (body req)))
                     = SHA256.hmac (encode (SECRET_TOKEN envs)) raw).
  { unfold GithubSha256Middleware.verifyGithubSignature. rewrite Hheader.
    set (mac := SHA256.hmac (encode (SECRET_TOKEN envs)) raw).
    assert (Hparts : split "=" ("sha256=" +:+ hex mac) !! 1%nat = Some (hex mac)).
    { change ("sha256=" +:+ ?h) with ("sha256" +:+ String "=" h).
      rewrite split_append_sep by done.
      rewrite split_no_sep by apply has_eq_hex, hmac_bytes. done. }
    destruct (GithubSha256Middleware.verifySignature _ _ _) eqn:Hv.
    - apply verifySignature_true in Hv as [_ (sigHex & Hs & Hd)].
      rewrite Hparts in Hs. apply (inj Some) in Hs. subst sigHex.
      rewrite decodePairs_hex in Hd by apply hmac_bytes.
      split; [by intros _ | done].
    - split; [done|]. intros Hmac. exfalso.
      apply not_true_iff_false in Hv. apply Hv.
      apply verifySignature_true. split; [done|].
      exists (hex mac). split; [done|].
      by rewrite decodePairs_hex by apply hmac_bytes. }
  split; [done|]. intros <-. by apply Hiff.
Qed.

Lemma verifyGithubSignature_macs_stringified_body_witness :
  let req := delivery [("x-hub-signature-256", sig_empty_object)] (JObj []) in
  SECRET_TOKEN envs0 <> EmptyString
  /\ headers req !! "x-hub-signature-256"
       = Some ("sha256=" +:+ hex (SHA256.hmac (encode (SECRET_TOKEN envs0)) (encode "{}")))
  /\ encode (JSON_stringify (body req)) = encode "{}"
  /\ GithubSha256Middleware.verifyGithubSignature envs0 req = Next.
Proof.
  intros req.
  assert (Hsecret : SECRET_TOKEN envs0 <> EmptyString) by discriminate.
  assert (Hheader : headers req !! "x-hub-signature-256"
                    = Some ("sha256=" +:+ hex (SHA256.hmac (encode (SECRET_TOKEN envs0))
                                                 (encode "{}")))) by (by vm_compute).
  assert (Hraw : encode (JSON_stringify (body req)) = encode "{}") by (by vm_compute).
  split; [exact Hsecret|]. split; [exact Hheader|]. split; [exact Hraw|].
  exact (proj2 (verifyGithubSignature_macs_stringified_body envs0 req (encode "{}")
                  Hsecret Hheader) Hraw).
Defined.

(** C2, on the code. The sender signs the three bytes [{ }] of the raw
    body. Whatever the parsed body, the bytes that are MACed differ from
    them; with the body parsed to the empty object the MAC is taken over
    the two bytes [{}], and the genuine delivery is answered 401. *)
Lemma raw_body_is_not_what_is_maced :
  (forall parsed : JSON, encode (JSON_stringify parsed) <> encode "{ }")
  /\ "sha256=" +:+ hex (SHA256.hmac (encode (SECRET_TOKEN envs0)) (encode "{ }"))
     = sig_spaced_object
  /\ encode (JSON_stringify (JObj [])) = encode "{}"
  /\ GithubSha256Middleware.verifyGithubSignature envs0
       (delivery [("x-hub-signature-256", sig_spaced_object)] (JObj []))
     = Respond {| status := 401;
                  content := Json (JObj [("error", JStr "Invalid signature")]) |}.
Proof.
  split; [|repeat split; by vm_compute].
  intros parsed H%encode_spaced_object. by apply JSON_stringify_not_spaced in H.
Qed.

(** ** The services and the controller *)

(** C9. The star summarizer on the payload
    [{action: "created", sender: {login: "alice"}, repository: {full_name:
    "org/repo"}}] returns exactly [User alice created star on org/repo]. *)
Theorem onStar_scenario_A :
  GitHubService.onStar star_alice = Ok "User alice created star on org/repo".
Proof. reflexivity. Qed.

(** C8. For an event type other than [star] and [issues] the switch returns
    normally, calls no summarizer, and its message is [Unknown event]
    followed by the event type, so the event type occurs in it verbatim. *)
Theorem dispatch_unknown_event (githubEvent : string) (payload : JSON) :
  githubEvent <> "star" -> githubEvent <> "issues" ->
  GitHubController.dispatch githubEvent payload
    = (Ok ("Unknown event " +:+ githubEvent), [])
  /\ (forall message, fst (GitHubController.dispatch githubEvent payload) = Ok message ->
        includes message githubEvent)
  /\ (forall e, fst (GitHubController.dispatch githubEvent payload) <> Throw e).
Proof.
  intros Hstar Hissues.
  assert (Hd : GitHubController.dispatch githubEvent payload
               = (Ok ("Unknown event " +:+ githubEvent), [])).
  { unfold GitHubController.dispatch.
    destruct (String.eqb_spec githubEvent "star") as [->|_]; [done|].
    destruct (String.eqb_spec githubEvent "issues") as [->|_]; done. }
  rewrite Hd. split; [done|]. split.
  - intros message [= <-]. exists "Unknown event ", EmptyString.
    by rewrite append_empty_r.
  - intros e. discriminate.
Qed.

Lemma dispatch_unknown_event_witness :
  "push" <> "star" /\ "push" <> "issues"
  /\ GitHubController.dispatch "push" JNull = (Ok "Unknown event push", [])
  /\ includes "Unknown event push" "push".
Proof.
  assert (Hstar : "push" <> "star") by discriminate.
  assert (Hissues : "push" <> "issues") by discriminate.
  destruct (dispatch_unknown_event "push" JNull Hstar Hissues) as (Hd & Hin & _).
  split; [exact Hstar|]. split; [exact Hissues|]. split; [exact Hd|].
  apply Hin. by rewrite Hd.
Defined.

(** ** The request pipeline *)

Lemma verifySignature_undefined (secret payload : string) :
  GithubSha256Middleware.verifySignature secret "undefined" payload = false.
Proof. apply verifySignature_false. right. by left. Qed.

(** [notify] catches every failure itself: its promise is never rejected. *)
Lemma notify_resolves (envs : Envs) (fetch : string -> string -> FetchResult)
    (message : string) :
  exists delivered, DiscordService.notify envs fetch message = Resolved delivered.
Proof.
  unfold DiscordService.notify.
  destruct (fetch _ _) as [status|]; [destruct (negb (ok status))|]; eauto.
Qed.

(** Whatever the outcome of the notification, the handler never answers 500. *)
Lemma webHookHandler_never_500 (envs : Envs)
    (fetch : string -> string -> FetchResult) (req : Request) (res : Response) :
  fst (GitHubController.webHookHandler envs fetch req) = Responded res ->
  status res = 202.
Proof.
  unfold GitHubController.webHookHandler.
  destruct (GitHubController.dispatch _ _) as [[message|e] calls]; [|done].
  destruct (notify_resolves envs fetch message) as [delivered ->].
  by intros [= <-].
Qed.

(** After the body parser: a request without signature header, and a
    request whose signature header the verifier turns down, is answered 401
    and no call is made. *)
Theorem invalid_signature_is_rejected (envs : Envs)
    (fetch : string -> string -> FetchResult) (req : Request) :
  headers req !! "x-hub-signature-256" = None
  \/ (exists value, headers req !! "x-hub-signature-256" = Some value
        /\ GithubSha256Middleware.verifySignature (SECRET_TOKEN envs) value
             (JSON_stringify (body req)) = false) ->
  main envs fetch req
  = (Responded {| status := 401;
                  content := Json (JObj [("error", JStr "Invalid signature")]) |},
     []).
Proof.
  intros H. unfold main, GithubSha256Middleware.verifyGithubSignature.
  destruct H as [-> | (value & -> & Hv)].
  - by rewrite verifySignature_undefined.
  - by rewrite Hv.
Qed.

Lemma invalid_signature_is_rejected_witness :
  let req := delivery [("x-github-event", "star")] star_alice in
  headers req !! "x-hub-signature-256" = None
  /\ main envs0 fetch_delivered req
     = (Responded {| status := 401;
                     content := Json (JObj [("error", JStr "Invalid signature")]) |},
        []).
Proof.
  intros req.
  assert (Hmissing : headers req !! "x-hub-signature-256" = None) by (by vm_compute).
  split; [exact Hmissing|].
  exact (invalid_signature_is_rejected envs0 fetch_delivered req (or_introl Hmissing)).
Defined.

(** C6 (amended). For every request whose signature header is missing or
    is turned down by the verifier, no call is made on the summarizers or
    on the notifier; when the body parser has accepted the body, the
    response is 401 with the body [{"error": "Invalid signature"}]. So
    nothing is dispatched unless the body was parsed and the verifier
    returned [true]. *)
Theorem unverified_request_is_not_dispatched (envs : Envs)
    (fetch : string -> string -> FetchResult) (inc : Incoming) :
  (forall value header,
      in_body inc = BodyParsed value ->
      in_headers inc !! "x-hub-signature-256" = Some header ->
      GithubSha256Middleware.verifySignature (SECRET_TOKEN envs) header
        (JSON_stringify value) = false) ->
  snd (express_app envs fetch inc) = []
  /\ (forall value,
        in_body inc = BodyParsed value ->
        fst (express_app envs fetch inc)
        = Handled (Responded
                     {| status := 401;
                        content := Json (JObj [("error", JStr "Invalid signature")]) |})).
Proof.
  intros Hturned. unfold express_app.
  destruct (in_body inc) as [value|status] eqn:Hbody.
  - set (req := {| method := in_method inc; path := in_path inc;
                   headers := in_headers inc; body := value |}).
    assert (Hmain : main envs fetch req
                    = (Responded {| status := 401;
                                    content := Json (JObj [("error", JStr "Invalid signature")]) |},
                       [])).
    { unfold main, GithubSha256Middleware.verifyGithubSignature. cbn [headers body req].
      destruct (in_headers inc !! "x-hub-signature-256") as [header|] eqn:Hheader.
      - by rewrite (Hturned value header eq_refl eq_refl).
      - by rewrite verifySignature_undefined. }
    rewrite Hmain. split; [done|]. by intros value' _.
  - split; [done|]. intros value' [=].
Qed.

Lemma unverified_request_is_not_dispatched_witness :
  let inc := incoming [("x-github-event", "star");
                       ("x-hub-signature-256", "sha256=00")]
                      (BodyParsed star_alice) in
  (forall value header,
      in_body inc = BodyParsed value ->
      in_headers inc !! "x-hub-signature-256" = Some header ->
      GithubSha256Middleware.verifySignature (SECRET_TOKEN envs0) header
        (JSON_stringify value) = false)
  /\ express_app envs0 fetch_delivered inc
     = (Handled (Responded
                   {| status := 401;
                      content := Json (JObj [("error", JStr "Invalid signature")]) |}),
        []).
Proof.
  intros inc.
  assert (Hturned : forall value header,
             in_body inc = BodyParsed value ->
             in_headers inc !! "x-hub-signature-256" = Some header ->
             GithubSha256Middleware.verifySignature (SECRET_TOKEN envs0) header
               (JSON_stringify value) = false).
  { intros value header [= <-] Hheader.
    assert (Hlookup : in_headers inc !! "x-hub-signature-256" = Some "sha256=00")
      by (by vm_compute).
    rewrite Hlookup in Hheader. injection Hheader as <-. by vm_compute. }
  split; [exact Hturned|].
  destruct (unverified_request_is_not_dispatched envs0 fetch_delivered inc Hturned)
    as [Hcalls Hanswer].
  specialize (Hanswer star_alice eq_refl).
  destruct (express_app envs0 fetch_delivered inc) as [answer calls].
  cbn [fst snd] in *. by rewrite Hcalls, Hanswer.
Defined.

(** C6 as stated fails. A header that is invalid in form, with the tag
    [md5] and a digest portion of 65 code units ending in [z], is accepted
    when its first 64 digits are the MAC: the delivery is dispatched and
    answered 202. And a request whose body the parser refuses is answered
    by the parser, with its status 400, before the signature is looked
    at. *)
Lemma invalid_header_is_dispatched :
  let digest := "b87fb47138f065764cc82187413e5aa41ed44a35ad5473efe73b3f9af98755a7z" in
  (String.length digest = 65%nat /\ allHex digest = false)
  /\ express_app envs0 fetch_delivered
       (incoming [("x-github-event", "star");
                  ("x-hub-signature-256", "md5=" +:+ digest)]
                 (BodyParsed star_alice))
     = (Handled (Responded {| status := 202; content := Send "Accepted" |}),
        [CallOnStar star_alice; CallNotify "User alice created star on org/repo"])
  /\ express_app envs0 fetch_delivered
       (incoming [("x-github-event", "star")] (BodyRefused 400))
     = (ParserError 400, []).
Proof. repeat split; by vm_compute. Qed.

(** C10. An authenticated delivery to the route without [x-github-event]
    header is handled under the event type [unknown]: the message given to
    the notifier is [Unknown event unknown], no summarizer is called, and a
    response is sent. *)
Theorem missing_event_header_is_unknown (envs : Envs)
    (fetch : string -> string -> FetchResult) (req : Request) :
  GithubSha256Middleware.verifyGithubSignature envs req = Next ->
  method req = "POST" -> route_matches "/api/github" (path req) = true ->
  header req "x-github-event" = None ->
  GitHubController.dispatch (default "unknown" (header req "x-github-event")) (body req)
    = (Ok "Unknown event unknown", [])
  /\ exists res,
       main envs fetch req = (Responded res, [CallNotify "Unknown event unknown"]).
Proof.
  intros Hvalid Hmethod Hpath Hevent. rewrite Hevent. split; [done|].
  unfold main. rewrite Hvalid, Hmethod, Hpath.
  change (String.eqb "POST" "POST" && true) with true. cbv iota.
  unfold GitHubController.webHookHandler. rewrite Hevent.
  change (GitHubController.dispatch (default "unknown" None) (body req))
    with (@Ok string "Unknown event unknown", @nil Call).
  cbv iota beta.
  destruct (notify_resolves envs fetch "Unknown event unknown") as [delivered ->].
  eauto.
Qed.

Lemma missing_event_header_is_unknown_witness :
  let req := delivery [("x-hub-signature-256", sig_empty_object)] (JObj []) in
  GithubSha256Middleware.verifyGithubSignature envs0 req = Next
  /\ header req "x-github-event" = None
  /\ exists res,
       main envs0 fetch_delivered req
       = (Responded res, [CallNotify "Unknown event unknown"]).
Proof.
  intros req.
  assert (Hvalid : GithubSha256Middleware.verifyGithubSignature envs0 req = Next)
    by (by vm_compute).
  assert (Hevent : header req "x-github-event" = None) by (by vm_compute).
  split; [exact Hvalid|]. split; [exact Hevent|].
  exact (proj2 (missing_event_header_is_unknown envs0 fetch_delivered req
                  Hvalid eq_refl eq_refl Hevent)).
Defined.

(** C1, on the code. An authenticated delivery whose notification fails,
    by a network error or by a 404 of the chat endpoint, is answered 202:
    [notify] resolves to [false] instead of rejecting, and the handler
    reads only whether the promise was rejected. *)
Theorem failed_notification_is_answered_202 :
  let req := delivery [("x-hub-signature-256", sig_empty_object);
                       ("x-github-event", "ping")] (JObj []) in
  DiscordService.notify envs0 fetch_network_error "Unknown event ping" = Resolved false
  /\ main envs0 fetch_network_error req
     = (Responded {| status := 202; content := Send "Accepted" |},
        [CallNotify "Unknown event ping"])
  /\ DiscordService.notify envs0 fetch_not_found "Unknown event ping" = Resolved false
  /\ main envs0 fetch_not_found req
     = (Responded {| status := 202; content := Send "Accepted" |},
        [CallNotify "Unknown event ping"]).
Proof. repeat split; by vm_compute. Qed.

(** C7, on the code. A star payload without [sender] and an issue payload
    without [issue], or with an issue without [user], make the summarizer
    throw a [TypeError]; the delivery then ends in Express's error handling
    and nothing is notified. *)
Theorem summarizers_throw_on_absent_objects :
  GitHubService.onStar (JObj [("action", JStr "created")]) = Throw TypeError
  /\ GitHubService.onIssue (JObj [("action", JStr "opened")]) = Throw TypeError
  /\ GitHubService.onIssue
       (JObj [("action", JStr "closed"); ("issue", JObj [("title", JStr "Bug X")])])
     = Throw TypeError
  /\ main envs0 fetch_delivered
       (delivery [("x-hub-signature-256",
                   "sha256=0031e94255b70a79704e0356204543768c078ca4f48b3ccc547edef03f4f338a");
                  ("x-github-event", "star")]
                 (JObj [("action", JStr "created")]))
     = (Uncaught TypeError, [CallOnStar (JObj [("action", JStr "created")])]).
Proof. repeat split; by vm_compute. Qed.

(** * Further properties of the code *)

(** ** [hexToBytes] *)

Lemma decodePair_byte (c : string) : byte (decodePair c).
Proof.
  unfold decodePair, ToUint8, byte.
  destruct (parseInt c 16); [apply Z.mod_pos_bound|]; lia.
Qed.

Lemma decodePairs_bytes (s : string) : Forall byte (decodePairs s).
Proof.
  unfold decodePairs. apply Forall_take.
  induction (pairs s) as [|c l IH]; constructor; [apply decodePair_byte | done].
Qed.

Lemma even_length_pairs (s : string) :
  Nat.even (String.length s) = true ->
  length (pairs s) = (String.length s / 2)%nat.
Proof.
  induction s as [| a | a b rest IH] using string_pair_ind; [done | done |].
  cbn [String.length pairs length]. intros Heven.
  change (Nat.even (S (S (String.length rest)))) with (Nat.even (String.length rest)) in Heven.
  rewrite (IH Heven).
  change (S (S (String.length rest))) with (1 * 2 + String.length rest)%nat.
  rewrite Nat.div_add_l by lia. lia.
Qed.

Lemma even_length_decodePairs (s : string) :
  Nat.even (String.length s) = true ->
  decodePairs s = map decodePair (pairs s).
Proof.
  intros Heven. unfold decodePairs.
  apply take_ge. rewrite length_map, even_length_pairs by done. lia.
Qed.

Lemma pairs_append (a b : string) :
  Nat.even (String.length a) = true -> pairs (a +:+ b) = pairs a ++ pairs b.
Proof.
  induction a as [| x | x y rest IH] using string_pair_ind; [done | done |].
  intros Heven.
  change (Nat.even (String.length (String x (String y rest))))
    with (Nat.even (String.length rest)) in Heven.
  rewrite !append_cons. cbn [pairs]. by rewrite (IH Heven).
Qed.

Lemma decodePairs_append (a b : string) :
  Nat.even (String.length a) = true ->
  decodePairs (a +:+ b) = decodePairs a ++ decodePairs b.
Proof.
  intros Heven. rewrite (even_length_decodePairs a Heven).
  unfold decodePairs. rewrite pairs_append, map_app, length_append by done.
  apply Nat.even_spec in Heven as [k Hk]. rewrite Hk.
  replace ((2 * k + String.length b) / 2)%nat with (k + String.length b / 2)%nat.
  - apply take_app_add'. rewrite length_map, even_length_pairs.
    + rewrite Hk, Nat.mul_comm. by rewrite Nat.div_mul.
    + apply Nat.even_spec. by exists k.
  - rewrite (Nat.mul_comm 2 k), Nat.div_add_l; lia.
Qed.

(** X1. [hexToBytes] returns, for every string, an array of as many bytes
    as half the length of the string, rounded down, each in 0..255. *)
Theorem hexToBytes_length (s : string) :
  exists bytes,
    GithubSha256Middleware.hexToBytes (Some s) = Ok bytes
    /\ length bytes = (String.length s / 2)%nat
    /\ Forall byte bytes.
Proof.
  exists (decodePairs s). rewrite hexToBytes_decodePairs.
  split; [done|]. split; [apply decodePairs_length | apply decodePairs_bytes].
Qed.

(** X2. Decoding undoes the hexadecimal encoding: for every list of bytes,
    [hexToBytes] of its two-digits-per-byte encoding is that list. *)
Theorem hexToBytes_hex (bytes : list Z) :
  Forall byte bytes ->
  GithubSha256Middleware.hexToBytes (Some (hex bytes)) = Ok bytes.
Proof.
  intros Hbytes. by rewrite hexToBytes_decodePairs, decodePairs_hex.
Qed.

Lemma hexToBytes_hex_witness :
  Forall byte [0; 10; 171; 255]
  /\ GithubSha256Middleware.hexToBytes (Some "000aabff") = Ok [0; 10; 171; 255].
Proof.
  assert (H : Forall byte [0; 10; 171; 255])
    by (repeat constructor; unfold byte; lia).
  split; [exact H|]. exact (hexToBytes_hex [0; 10; 171; 255] H).
Defined.

(** X5. [hexToBytes] of a concatenation whose first part has even length
    is the concatenation of the two arrays. *)
Theorem hexToBytes_append (a b : string) (x y : list Z) :
  Nat.even (String.length a) = true ->
  GithubSha256Middleware.hexToBytes (Some a) = Ok x ->
  GithubSha256Middleware.hexToBytes (Some b) = Ok y ->
  GithubSha256Middleware.hexToBytes (Some (a +:+ b)) = Ok (x ++ y).
Proof.
  rewrite !hexToBytes_decodePairs. intros Heven [= <-] [= <-].
  by rewrite decodePairs_append.
Qed.

Lemma hexToBytes_append_witness :
  Nat.even (String.length "0a1b") = true
  /\ GithubSha256Middleware.hexToBytes (Some "0a1b") = Ok [10; 27]
  /\ GithubSha256Middleware.hexToBytes (Some "ff0") = Ok [255]
  /\ GithubSha256Middleware.hexToBytes (Some "0a1bff0") = Ok [10; 27; 255].
Proof.
  split; [reflexivity|]. split; [reflexivity|]. split; [reflexivity|].
  exact (hexToBytes_append "0a1b" "ff0" [10; 27] [255] eq_refl eq_refl eq_refl).
Defined.

(** X6. A last code unit at an odd position is ignored: appending one code
    unit to a string of even length does not change what [hexToBytes]
    returns. *)
Theorem hexToBytes_odd_tail (s : string) (c : ascii) :
  Nat.even (String.length s) = true ->
  GithubSha256Middleware.hexToBytes (Some (s +:+ String c EmptyString))
  = GithubSha256Middleware.hexToBytes (Some s).
Proof.
  intros Heven. rewrite !hexToBytes_decodePairs, decodePairs_append by done.
  change (decodePairs (String c EmptyString)) with (@nil Z).
  by rewrite app_nil_r.
Qed.

Lemma hexToBytes_odd_tail_witness :
  Nat.even (String.length "0a1b") = true
  /\ GithubSha256Middleware.hexToBytes (Some "0a1bz")
     = GithubSha256Middleware.hexToBytes (Some "0a1b").
Proof.
  split; [reflexivity|]. exact (hexToBytes_odd_tail "0a1b" "z" eq_refl).
Defined.

Lemma all_ascii_pairs (P : ascii -> ascii -> bool) :
  forallb (fun a => forallb (P a) (map ascii_of_nat (seq 0 256)))
          (map ascii_of_nat (seq 0 256)) = true ->
  forall a b, P a b = true.
Proof.
  intros H a b.
  apply (all_ascii (P a)).
  revert a. apply (all_ascii (fun a => forallb (P a) (map ascii_of_nat (seq 0 256)))).
  exact H.
Qed.

Lemma length_toLowerCase (s : string) :
  String.length (toLowerCase s) = String.length s.
Proof. induction s as [|c s IH]; simpl; [done | by rewrite IH]. Qed.

Lemma decodePair_toLowerCase_1 (a : ascii) :
  decodePair (toLowerCase (String a EmptyString)) = decodePair (String a EmptyString).
Proof.
  apply Z.eqb_eq. revert a.
  apply (all_ascii (fun a => decodePair (toLowerCase (String a EmptyString))
                             =? decodePair (String a EmptyString))).
  by vm_compute.
Qed.

Lemma decodePair_toLowerCase_2 (a b : ascii) :
  decodePair (toLowerCase (String a (String b EmptyString)))
  = decodePair (String a (String b EmptyString)).
Proof.
  apply Z.eqb_eq. revert a b.
  apply (all_ascii_pairs
           (fun a b => decodePair (toLowerCase (String a (String b EmptyString)))
                       =? decodePair (String a (String b EmptyString)))).
  by vm_compute.
Qed.

Lemma decodePairs_toLowerCase (s : string) :
  decodePairs (toLowerCase s) = decodePairs s.
Proof.
  unfold decodePairs. rewrite length_toLowerCase. f_equal.
  induction s as [| a | a b rest IH] using string_pair_ind.
  - done.
  - cbn [toLowerCase pairs map].
    by rewrite <- (decodePair_toLowerCase_1 a).
  - cbn [toLowerCase pairs map]. rewrite IH. f_equal.
    apply (decodePair_toLowerCase_2 a b).
Qed.

(** X4. [hexToBytes] reads letters without regard to their case: putting
    the string in lower case does not change the bytes. *)
Theorem hexToBytes_toLowerCase (s : string) :
  GithubSha256Middleware.hexToBytes (Some (toLowerCase s))
  = GithubSha256Middleware.hexToBytes (Some s).
Proof. by rewrite !hexToBytes_decodePairs, decodePairs_toLowerCase. Qed.

Lemma hex2_decodePair (a b : ascii) :
  isHexDigit a = true -> isHexDigit b = true ->
  hex2 (decodePair (String a (String b EmptyString)))
  = toLowerCase (String a (String b EmptyString)).
Proof.
  intros Ha Hb.
  pose (P := fun a b : ascii =>
               negb (isHexDigit a && isHexDigit b)
               || String.eqb (hex2 (decodePair (String a (String b EmptyString))))
                             (toLowerCase (String a (String b EmptyString)))).
  assert (H : P a b = true).
  { revert a b Ha Hb. intros a b _ _. revert a b.
    apply (all_ascii_pairs P). by vm_compute. }
  unfold P in H. rewrite Ha, Hb in H. simpl in H.
  by apply String.eqb_eq.
Qed.

Lemma hex_decodePairs (s : string) :
  Nat.even (String.length s) = true -> allHex s = true ->
  hex (decodePairs s) = toLowerCase s.
Proof.
  induction s as [| a | a b rest IH] using string_pair_ind; [done | done |].
  intros Heven Hhex.
  change (Nat.even (String.length (String a (String b rest))))
    with (Nat.even (String.length rest)) in Heven.
  cbn [allHex] in Hhex.
  apply andb_true_iff in Hhex as [Ha Hhex].
  apply andb_true_iff in Hhex as [Hb Hhex].
  change (String a (String b rest))
    with (String a (String b EmptyString) +:+ rest) at 1.
  rewrite decodePairs_append by done.
  change (decodePairs (String a (String b EmptyString)))
    with [decodePair (String a (String b EmptyString))].
  cbn [app]. rewrite hex_cons, hex2_decodePair, IH by done.
  reflexivity.
Qed.

(** X3. Encoding undoes the decoding on well-formed input: for a string of
    even length made of hexadecimal digits only, the hexadecimal encoding
    of the bytes [hexToBytes] returns is the string in lower case. *)
Theorem hex_hexToBytes (s : string) :
  Nat.even (String.length s) = true -> allHex s = true ->
  exists bytes,
    GithubSha256Middleware.hexToBytes (Some s) = Ok bytes
    /\ hex bytes = toLowerCase s.
Proof.
  intros Heven Hhex. exists (decodePairs s).
  rewrite hexToBytes_decodePairs. split; [done | by apply hex_decodePairs].
Qed.

Lemma hex_hexToBytes_witness :
  Nat.even (String.length "0A1bFf") = true /\ allHex "0A1bFf" = true
  /\ exists bytes,
       GithubSha256Middleware.hexToBytes (Some "0A1bFf") = Ok bytes
       /\ hex bytes = "0a1bff".
Proof.
  split; [reflexivity|]. split; [reflexivity|].
  exact (hex_hexToBytes "0A1bFf" eq_refl eq_refl).
Defined.

(** ** [verifySignature] *)

(** The verifier reads the header only through the bytes decoded from its
    second [=]-separated part. *)
Lemma verifySignature_same_digest (secret h1 h2 payload : string) :
  decodePairs <$> (split "=" h1 !! 1%nat) = decodePairs <$> (split "=" h2 !! 1%nat) ->
  GithubSha256Middleware.verifySignature secret h1 payload
  = GithubSha256Middleware.verifySignature secret h2 payload.
Proof.
  intros H. apply Bool.eq_true_iff_eq. rewrite !verifySignature_true.
  split; intros [Hs (sig & Hp & Hd)]; (split; [done|]).
  - rewrite Hp in H. symmetry in H. apply fmap_Some in H as (sig' & Hp' & Heq).
    exists sig'. split; [done|]. by rewrite <- Heq.
  - rewrite Hp in H. apply fmap_Some in H as (sig' & Hp' & Heq).
    exists sig'. split; [done|]. by rewrite <- Heq.
Qed.

Lemma split_tag_digest (tag digest : string) :
  has "=" tag = false ->
  split "=" (tag +:+ "=" +:+ digest) !! 1%nat = head (split "=" digest).
Proof.
  intros Htag. change ("=" +:+ digest) with (String "=" digest).
  rewrite split_append_sep by done. by destruct (split "=" digest).
Qed.

(** X7. The verifier answers [true] exactly when the secret is not the
    empty string, the header has a second [=]-separated part, and
    [hexToBytes] of that part is the HMAC-SHA256 of the payload under the
    secret. *)
Theorem verifySignature_accepts_iff (secret header payload : string) :
  GithubSha256Middleware.verifySignature secret header payload = true
  <-> secret <> EmptyString
      /\ exists sigHex,
           split "=" header !! 1%nat = Some sigHex
           /\ GithubSha256Middleware.hexToBytes (Some sigHex)
              = Ok (HMAC_SHA256 secret payload).
Proof.
  rewrite verifySignature_true.
  split; intros [Hs (sigHex & Hp & Hd)]; (split; [done|]); exists sigHex;
    (split; [done|]); rewrite hexToBytes_decodePairs in *; congruence.
Qed.

(** X8. The text before the first [=] is never looked at: two headers with
    the same text after it are verified alike, whatever their tags. *)
Theorem verifySignature_ignores_tag (secret tag1 tag2 digest payload : string) :
  has "=" tag1 = false -> has "=" tag2 = false ->
  GithubSha256Middleware.verifySignature secret (tag1 +:+ "=" +:+ digest) payload
  = GithubSha256Middleware.verifySignature secret (tag2 +:+ "=" +:+ digest) payload.
Proof.
  intros H1 H2. apply verifySignature_same_digest.
  by rewrite !split_tag_digest.
Qed.

Lemma verifySignature_ignores_tag_witness :
  has "=" "md5" = false /\ has "=" "sha256" = false
  /\ GithubSha256Middleware.verifySignature "secret" ("md5" +:+ "=" +:+ "00ff") "{}"
     = GithubSha256Middleware.verifySignature "secret" ("sha256" +:+ "=" +:+ "00ff") "{}".
Proof.
  split; [reflexivity|]. split; [reflexivity|].
  exact (verifySignature_ignores_tag "secret" "md5" "sha256" "00ff" "{}" eq_refl eq_refl).
Defined.

(** X9. What follows a second [=] is never looked at. *)
Theorem verifySignature_ignores_third_part
    (secret tag digest rest payload : string) :
  has "=" tag = false -> has "=" digest = false ->
  GithubSha256Middleware.verifySignature secret
    (tag +:+ "=" +:+ digest +:+ "=" +:+ rest) payload
  = GithubSha256Middleware.verifySignature secret (tag +:+ "=" +:+ digest) payload.
Proof.
  intros Htag Hdigest. apply verifySignature_same_digest.
  rewrite !split_tag_digest by done.
  change ("=" +:+ rest) with (String "=" rest).
  by rewrite split_append_sep, (split_no_sep "=" digest) by done.
Qed.

Lemma verifySignature_ignores_third_part_witness :
  has "=" "sha256" = false /\ has "=" "00ff" = false
  /\ GithubSha256Middleware.verifySignature "secret"
       ("sha256" +:+ "=" +:+ "00ff" +:+ "=" +:+ "anything") "{}"
     = GithubSha256Middleware.verifySignature "secret" ("sha256" +:+ "=" +:+ "00ff") "{}".
Proof.
  split; [reflexivity|]. split; [reflexivity|].
  exact (verifySignature_ignores_third_part "secret" "sha256" "00ff" "anything" "{}"
           eq_refl eq_refl).
Defined.

(** X10. With the empty string as secret nothing is accepted, whatever the
    header and the payload. *)
Theorem verifySignature_empty_secret_rejects (header payload : string) :
  GithubSha256Middleware.verifySignature EmptyString header payload = false.
Proof. apply verifySignature_false. by left. Qed.

Lemma allHex_no_separator (s : string) : allHex s = true -> has "=" s = false.
Proof.
  induction s as [|c s IH]; [done|]. cbn [allHex has].
  intros [Hc Hs]%andb_true_iff. rewrite (IH Hs), orb_false_r.
  destruct (Ascii.eqb_spec c "=") as [->|]; [|done].
  by vm_compute in Hc.
Qed.

(** X11. An accepted digest of hexadecimal digits is the MAC: when a header
    whose digest portion has even length and holds hexadecimal digits only
    is accepted, that digest portion, in lower case, is the hexadecimal
    encoding of the HMAC-SHA256 of the payload under the secret. *)
Theorem verifySignature_accepted_digest_is_mac
    (secret tag digest payload : string) :
  has "=" tag = false ->
  Nat.even (String.length digest) = true -> allHex digest = true ->
  GithubSha256Middleware.verifySignature secret (tag +:+ "=" +:+ digest) payload = true ->
  toLowerCase digest = hex (HMAC_SHA256 secret payload).
Proof.
  intros Htag Heven Hhex [_ (sigHex & Hp & Hd)]%verifySignature_true.
  rewrite split_tag_digest in Hp by done.
  rewrite split_no_sep in Hp by (by apply allHex_no_separator).
  apply (inj Some) in Hp. subst sigHex.
  by rewrite <- Hd, hex_decodePairs.
Qed.

Lemma verifySignature_accepted_digest_is_mac_witness :
  let digest := "77325902CACA812DC259733AACD046B73817372C777B8D95B402647474516E13" in
  has "=" "sha256" = false
  /\ Nat.even (String.length digest) = true /\ allHex digest = true
  /\ GithubSha256Middleware.verifySignature "secret" ("sha256" +:+ "=" +:+ digest) "{}" = true
  /\ toLowerCase digest = hex (HMAC_SHA256 "secret" "{}").
Proof.
  intros digest.
  assert (Hv : GithubSha256Middleware.verifySignature "secret"
                 ("sha256" +:+ "=" +:+ digest) "{}" = true) by (by vm_compute).
  split; [reflexivity|]. split; [reflexivity|]. split; [reflexivity|].
  split; [exact Hv|].
  exact (verifySignature_accepted_digest_is_mac "secret" "sha256" digest "{}"
           eq_refl eq_refl eq_refl Hv).
Defined.

Lemma toLowerCase_unit_separator (c : ascii) :
  Ascii.eqb (toLowerCase_unit c) "=" = Ascii.eqb c "=".
Proof.
  apply eqb_true_iff. revert c.
  apply (all_ascii (fun c => eqb (Ascii.eqb (toLowerCase_unit c) "=") (Ascii.eqb c "="))).
  by vm_compute.
Qed.

Lemma split_toLowerCase (s : string) :
  split "=" (toLowerCase s) = map toLowerCase (split "=" s).
Proof.
  induction s as [|c s IH]; [done|].
  cbn [toLowerCase split]. rewrite toLowerCase_unit_separator, IH.
  destruct (Ascii.eqb c "="); [done|].
  by destruct (split "=" s).
Qed.

(** X12. The verifier reads the header without regard to the case of
    letters: a header and the same header in lower case are verified
    alike, so a digest in upper-case hexadecimal is as good as one in lower
    case. *)
Theorem verifySignature_toLowerCase (secret header payload : string) :
  GithubSha256Middleware.verifySignature secret (toLowerCase header) payload
  = GithubSha256Middleware.verifySignature secret header payload.
Proof.
  apply verifySignature_same_digest.
  rewrite split_toLowerCase, list_lookup_fmap.
  destruct (split "=" header !! 1%nat) as [sigHex|]; [|done].
  simpl. by rewrite decodePairs_toLowerCase.
Qed.

(** ** [GitHubService] *)

Lemma sequence_throw {A} (l : list (Result A)) (e : Error) :
  sequence l = Throw e -> In (Throw e) l.
Proof.
  induction l as [|x l IH]; [done|]. cbn [sequence]. unfold bind at 1.
  destruct x as [a|e']; [|intros [= ->]; by left].
  unfold bind. destruct (sequence l) as [rest|e'']; [done|].
  intros [= ->]. right. by apply IH.
Qed.

(** Converting parsed JSON to a string fails with a [TypeError] or not at
    all. *)
Lemma ToString_JSON_throws : forall (v : JSON) (e : Error),
  ToString_JSON v = Throw e -> e = TypeError.
Proof.
  fix IH 1. intros v. destruct v as [| b | n | s | items | fields]; intros e;
    cbn [ToString_JSON]; try discriminate.
  - assert (Hall : Forall (fun item => forall e', ToString_JSON item = Throw e' -> e' = TypeError)
                          items).
    { clear e. induction items as [|item items IHitems]; constructor;
        [intros e'; apply IH | exact IHitems]. }
    clear IH. unfold bind.
    destruct (sequence _) as [parts|e'] eqn:Hseq; [discriminate|].
    intros [= <-]. apply sequence_throw in Hseq.
    induction Hall as [|item items Hitem _ IHitems]; [done|].
    destruct Hseq as [Hthrow|Hrest]; [|by apply IHitems].
    destruct item; try discriminate; by apply Hitem in Hthrow.
  - clear IH. destruct (own fields "toString"); [by intros [= <-] | discriminate].
Qed.

Lemma ToString_throws (v : Value) (e : Error) :
  ToString v = Throw e -> e = TypeError.
Proof. destruct v as [j|]; [apply ToString_JSON_throws | discriminate]. Qed.

Lemma Get_throws (v : Value) (k : string) (e : Error) :
  Get v k = Throw e -> e = TypeError.
Proof. destruct v as [[]|]; simpl; congruence. Qed.

Lemma strictEqualsString_true (v : Value) (lit : string) :
  strictEqualsString v lit = true <-> v = Some (JStr lit).
Proof.
  destruct v as [[| | | s | |]|]; simpl; try (split; [discriminate | congruence]).
  rewrite String.eqb_eq. split; [by intros -> | by intros [= ->]].
Qed.

Lemma strictEqualsString_false (v : Value) (lit : string) :
  v <> Some (JStr lit) -> strictEqualsString v lit = false.
Proof.
  intros Hv. apply not_true_iff_false. by rewrite strictEqualsString_true.
Qed.

Ltac throws_TypeError :=
  repeat match goal with
         | H : Get _ _ = Throw _ |- _ => apply Get_throws in H; subst
         | H : ToString _ = Throw _ |- _ => apply ToString_throws in H; subst
         end;
  congruence.

Lemma onStar_throws (payload : JSON) (e : Error) :
  GitHubService.onStar payload = Throw e -> e = TypeError.
Proof.
  unfold GitHubService.onStar, bind.
  repeat match goal with
         | |- context [match ?x with Ok _ => _ | Throw _ => _ end] => destruct x eqn:?
         end; intros; throws_TypeError.
Qed.

Lemma onIssue_throws (payload : JSON) (e : Error) :
  GitHubService.onIssue payload = Throw e -> e = TypeError.
Proof.
  unfold GitHubService.onIssue, bind.
  repeat match goal with
         | |- context [match ?x with Ok _ => _ | Throw _ => _ end] => destruct x eqn:?
         | |- context [if ?b then _ else _] => destruct b
         end; intros; throws_TypeError.
Qed.

(** X13. For a star payload whose [sender] and [repository] are objects,
    the message is [User <login> <action> star on <full_name>], each of the
    three written as a template literal writes it; an absent one reads
    [undefined]. *)
Theorem onStar_message (fields sender repository : list (string * JSON))
    (login action full_name : string) :
  own fields "sender" = Some (JObj sender) ->
  own fields "repository" = Some (JObj repository) ->
  ToString (own sender "login") = Ok login ->
  ToString (own fields "action") = Ok action ->
  ToString (own repository "full_name") = Ok full_name ->
  GitHubService.onStar (JObj fields)
  = Ok ("User " +:+ login +:+ " " +:+ action +:+ " star on " +:+ full_name).
Proof.
  intros Hsender Hrepository Hlogin Haction Hname.
  unfold GitHubService.onStar. cbn [Get bind].
  rewrite Hsender, Hrepository. cbn [Get bind].
  by rewrite Hlogin, Haction, Hname.
Qed.

Lemma onStar_message_witness :
  let fields := [("repository", JObj [("id", JNum (Int 7 eq_refl))]);
                 ("action", JStr "deleted");
                 ("sender", JObj [("login", JStr "bob"); ("id", JNum (Int 1 eq_refl))])] in
  own fields "sender" = Some (JObj [("login", JStr "bob"); ("id", JNum (Int 1 eq_refl))])
  /\ GitHubService.onStar (JObj fields)
     = Ok ("User " +:+ "bob" +:+ " " +:+ "deleted" +:+ " star on " +:+ "undefined").
Proof.
  intros fields. split; [reflexivity|].
  exact (onStar_message fields [("login", JStr "bob"); ("id", JNum (Int 1 eq_refl))]
           [("id", JNum (Int 7 eq_refl))] "bob" "deleted" "undefined"
           eq_refl eq_refl eq_refl eq_refl eq_refl).
Defined.

(** X14. A star payload whose [sender] or [repository] is absent or [null]
    makes [onStar] throw a [TypeError], whatever else the payload holds. *)
Theorem onStar_throws_without_objects (fields : list (string * JSON)) :
  own fields "sender" = None \/ own fields "sender" = Some JNull
  \/ own fields "repository" = None \/ own fields "repository" = Some JNull ->
  GitHubService.onStar (JObj fields) = Throw TypeError.
Proof.
  intros H.
  destruct (GitHubService.onStar (JObj fields)) as [message|e] eqn:Hstar.
  - exfalso. revert Hstar. unfold GitHubService.onStar. cbn [Get bind].
    destruct H as [-> | [-> | H]]; [done | done |].
    unfold bind.
    repeat match goal with
           | |- context [match ?x with Ok _ => _ | Throw _ => _ end] =>
               destruct x eqn:?
           end; try discriminate.
    destruct H as [H|H]; rewrite H in *; discriminate.
  - by rewrite (onStar_throws _ _ Hstar).
Qed.

Lemma onStar_throws_without_objects_witness :
  let fields := [("action", JStr "created"); ("sender", JObj [("login", JStr "bob")])] in
  own fields "repository" = None
  /\ GitHubService.onStar (JObj fields) = Throw TypeError.
Proof.
  intros fields.
  assert (H : own fields "repository" = None) by reflexivity.
  split; [exact H|].
  exact (onStar_throws_without_objects fields (or_intror (or_intror (or_introl H)))).
Defined.

(** X15. For an issue payload with action [opened] whose [issue] is an
    object, the message is [An issue was opened with this title <title>];
    neither the reporter nor the sender is read. *)
Theorem onIssue_opened (fields issue : list (string * JSON)) (title : string) :
  own fields "action" = Some (JStr "opened") ->
  own fields "issue" = Some (JObj issue) ->
  ToString (own issue "title") = Ok title ->
  GitHubService.onIssue (JObj fields)
  = Ok ("An issue was opened with this title " +:+ title).
Proof.
  intros Haction Hissue Htitle.
  unfold GitHubService.onIssue. cbn [Get bind].
  rewrite Haction, Hissue. cbn [strictEqualsString String.eqb Ascii.eqb Bool.eqb Get bind].
  change (String.eqb "opened" "opened") with true. cbv iota.
  by rewrite Htitle.
Qed.

Lemma onIssue_opened_witness :
  let fields := [("action", JStr "opened"); ("issue", JObj [("title", JStr "Bug X")])] in
  own fields "action" = Some (JStr "opened")
  /\ GitHubService.onIssue (JObj fields)
     = Ok ("An issue was opened with this title " +:+ "Bug X").
Proof.
  intros fields. split; [reflexivity|].
  exact (onIssue_opened fields [("title", JStr "Bug X")] "Bug X" eq_refl eq_refl eq_refl).
Defined.

(** X16. For an issue payload with action [closed] or [reopened] whose
    [issue] and [issue.user] are objects, the message names the login of
    the issue's user, [An issue was <action> by <login>]; the sender of the
    event is not read. *)
Theorem onIssue_closed_or_reopened (fields issue user : list (string * JSON))
    (action login : string) :
  action = "closed" \/ action = "reopened" ->
  own fields "action" = Some (JStr action) ->
  own fields "issue" = Some (JObj issue) ->
  own issue "user" = Some (JObj user) ->
  ToString (own user "login") = Ok login ->
  GitHubService.onIssue (JObj fields)
  = Ok ("An issue was " +:+ action +:+ " by " +:+ login).
Proof.
  intros Hwhich Haction Hissue Huser Hlogin.
  unfold GitHubService.onIssue. cbn [Get bind].
  rewrite Haction, Hissue.
  destruct Hwhich as [-> | ->]; cbn [strictEqualsString].
  - change (String.eqb "closed" "opened") with false.
    change (String.eqb "closed" "closed") with true. cbv iota. cbn [Get bind].
    rewrite Huser. cbn [Get bind]. by rewrite Hlogin.
  - change (String.eqb "reopened" "opened") with false.
    change (String.eqb "reopened" "closed") with false.
    change (String.eqb "reopened" "reopened") with true. cbv iota. cbn [Get bind].
    rewrite Huser. cbn [Get bind]. by rewrite Hlogin.
Qed.

Lemma onIssue_closed_or_reopened_witness :
  let fields := [("action", JStr "closed");
                 ("issue", JObj [("user", JObj [("login", JStr "reporter")])]);
                 ("sender", JObj [("login", JStr "closer")])] in
  own fields "action" = Some (JStr "closed")
  /\ GitHubService.onIssue (JObj fields)
     = Ok ("An issue was " +:+ "closed" +:+ " by " +:+ "reporter").
Proof.
  intros fields. split; [reflexivity|].
  exact (onIssue_closed_or_reopened fields
           [("user", JObj [("login", JStr "reporter")])]
           [("login", JStr "reporter")] "closed" "reporter"
           (or_introl eq_refl) eq_refl eq_refl eq_refl eq_refl).
Defined.

(** X17. For an issue payload whose action is none of the strings
    [opened], [closed] and [reopened], the message is [Unhandled action for
    the issue event <action>], the action written as a template literal
    writes it; the issue is not read and may be absent. *)
Theorem onIssue_unhandled (fields : list (string * JSON)) (action : string) :
  own fields "action" <> Some (JStr "opened") ->
  own fields "action" <> Some (JStr "closed") ->
  own fields "action" <> Some (JStr "reopened") ->
  ToString (own fields "action") = Ok action ->
  GitHubService.onIssue (JObj fields)
  = Ok ("Unhandled action for the issue event " +:+ action).
Proof.
  intros Hopened Hclosed Hreopened Haction.
  unfold GitHubService.onIssue. cbn [Get bind].
  rewrite !strictEqualsString_false by done.
  by rewrite Haction.
Qed.

Lemma onIssue_unhandled_witness :
  let fields := [("action", JStr "labeled")] in
  own fields "action" <> Some (JStr "opened")
  /\ GitHubService.onIssue (JObj fields)
     = Ok ("Unhandled action for the issue event " +:+ "labeled").
Proof.
  intros fields.
  assert (H1 : own fields "action" <> Some (JStr "opened")) by discriminate.
  assert (H2 : own fields "action" <> Some (JStr "closed")) by discriminate.
  assert (H3 : own fields "action" <> Some (JStr "reopened")) by discriminate.
  split; [exact H1|].
  exact (onIssue_unhandled fields "labeled" H1 H2 H3 eq_refl).
Defined.

(** ** [GitHubController], [DiscordService] and the pipeline *)

(** X18. The switch of the handler fails only for the events [star] and
    [issues], and then with a [TypeError]. *)
Theorem dispatch_throws (githubEvent : string) (payload : JSON) (e : Error) :
  fst (GitHubController.dispatch githubEvent payload) = Throw e ->
  e = TypeError /\ (githubEvent = "star" \/ githubEvent = "issues").
Proof.
  unfold GitHubController.dispatch.
  destruct (String.eqb_spec githubEvent "star") as [->|_].
  { cbn [fst]. intros H%onStar_throws. auto. }
  destruct (String.eqb_spec githubEvent "issues") as [->|_].
  { cbn [fst]. intros H%onIssue_throws. auto. }
  discriminate.
Qed.

Lemma dispatch_throws_witness :
  fst (GitHubController.dispatch "issues" JNull) = Throw TypeError
  /\ (TypeError = TypeError /\ ("issues" = "star" \/ "issues" = "issues")).
Proof.
  assert (H : fst (GitHubController.dispatch "issues" JNull) = Throw TypeError)
    by reflexivity.
  split; [exact H|]. exact (dispatch_throws "issues" JNull TypeError H).
Defined.

(** X19. [notify] posts the JSON text of [{content: message}] to the
    configured URL; its promise is never rejected, and it resolves to
    [true] exactly when that request is answered with a status from 200 to
    299. *)
Theorem notify_delivered_iff (envs : Envs)
    (fetch : string -> string -> FetchResult) (message : string) :
  (DiscordService.notify envs fetch message = Resolved true
   <-> exists status,
         fetch (DISCORT_WEBHOOK_URL envs)
               (JSON_stringify (JObj [("content", JStr message)]))
           = FetchResponse status
         /\ 200 <= status <= 299)
  /\ (DiscordService.notify envs fetch message = Resolved true
      \/ DiscordService.notify envs fetch message = Resolved false).
Proof.
  unfold DiscordService.notify, DiscordService.discordWebhookUrl, ok.
  destruct (fetch _ _) as [status|].
  - destruct (Z.leb_spec 200 status), (Z.leb_spec status 299); cbn [andb negb];
      (split; [split|]); try discriminate; auto.
    + intros _. exists status. split; [done | lia].
    + intros (st & [= <-] & Hst). lia.
    + intros (st & [= <-] & Hst). lia.
    + intros (st & [= <-] & Hst). lia.
  - split; [|by right]. split; [discriminate|]. by intros (st & Hst & _).
Qed.

(** X20. On an authenticated POST to the route, when the switch yields a
    message, that message is handed to the notifier once, after the call
    of the summarizer if there was one, and the response is 202
    [Accepted]. *)
Theorem main_forwards_message (envs : Envs)
    (fetch : string -> string -> FetchResult) (req : Request) (message : string) :
  GithubSha256Middleware.verifyGithubSignature envs req = Next ->
  method req = "POST" -> route_matches "/api/github" (path req) = true ->
  fst (GitHubController.dispatch
         (default "unknown" (header req "x-github-event")) (body req)) = Ok message ->
  main envs fetch req
  = (Responded {| status := 202; content := Send "Accepted" |},
     snd (GitHubController.dispatch
            (default "unknown" (header req "x-github-event")) (body req))
     ++ [CallNotify message]).
Proof.
  intros Hvalid Hmethod Hpath Hmessage.
  unfold main. rewrite Hvalid, Hmethod, Hpath.
  change (String.eqb "POST" "POST" && true) with true. cbv iota.
  unfold GitHubController.webHookHandler.
  destruct (GitHubController.dispatch _ _) as [result calls].
  cbn [fst snd] in *. subst result.
  by destruct (notify_resolves envs fetch message) as [delivered ->].
Qed.

Lemma main_forwards_message_witness :
  let req := delivery [("x-hub-signature-256",
                        "sha256=b87fb47138f065764cc82187413e5aa41ed44a35ad5473efe73b3f9af98755a7");
                       ("x-github-event", "star")] star_alice in
  GithubSha256Middleware.verifyGithubSignature envs0 req = Next
  /\ main envs0 fetch_delivered req
     = (Responded {| status := 202; content := Send "Accepted" |},
        [CallOnStar star_alice; CallNotify "User alice created star on org/repo"]).
Proof.
  intros req.
  assert (Hvalid : GithubSha256Middleware.verifyGithubSignature envs0 req = Next)
    by (by vm_compute).
  split; [exact Hvalid|].
  exact (main_forwards_message envs0 fetch_delivered req
           "User alice created star on org/repo" Hvalid eq_refl eq_refl eq_refl).
Defined.

(** X21. On an authenticated POST to the route, when a summarizer throws,
    the exception leaves the handler and the notifier is not called. *)
Theorem main_summarizer_failure (envs : Envs)
    (fetch : string -> string -> FetchResult) (req : Request) (e : Error) :
  GithubSha256Middleware.verifyGithubSignature envs req = Next ->
  method req = "POST" -> route_matches "/api/github" (path req) = true ->
  fst (GitHubController.dispatch
         (default "unknown" (header req "x-github-event")) (body req)) = Throw e ->
  fst (main envs fetch req) = Uncaught e
  /\ forall message, ~ In (CallNotify message) (snd (main envs fetch req)).
Proof.
  intros Hvalid Hmethod Hpath Hthrow.
  unfold main. rewrite Hvalid, Hmethod, Hpath.
  change (String.eqb "POST" "POST" && true) with true. cbv iota.
  unfold GitHubController.webHookHandler.
  revert Hthrow. unfold GitHubController.dispatch.
  destruct (String.eqb _ "star"); [|destruct (String.eqb _ "issues")];
    cbn [fst snd]; intros Hthrow; try discriminate; rewrite Hthrow;
    (split; [done|]); intros message [Hin|[]]; discriminate.
Qed.

Lemma main_summarizer_failure_witness :
  let req := delivery [("x-hub-signature-256", sig_empty_object);
                       ("x-github-event", "star")] (JObj []) in
  GithubSha256Middleware.verifyGithubSignature envs0 req = Next
  /\ fst (main envs0 fetch_delivered req) = Uncaught TypeError.
Proof.
  intros req.
  assert (Hvalid : GithubSha256Middleware.verifyGithubSignature envs0 req = Next)
    by (by vm_compute).
  split; [exact Hvalid|].
  exact (proj1 (main_summarizer_failure envs0 fetch_delivered req TypeError
                  Hvalid eq_refl eq_refl eq_refl)).
Defined.


